(** * Swig agent wallet client

    A shallow embedding of [scripts/swig-client.ts] (the [SwigClient] class
    and [parsePermission]) together with the part of the JavaScript runtime
    the client relies on, followed by the properties of the treasury
    specification that can be stated over it.

    Conventions.
    - A JavaScript string is a Rocq [string]; each [ascii] is one UTF-16
      code unit in the range 0..255.
    - A JavaScript [number] is an IEEE 754 binary64 value ([spec_float] at
      precision 53, exponent bound 1024); a [bigint] is a [Z].
    - A function that can throw returns a [result]; an [async] method of the
      client threads the state of the cluster it talks to. *)

From Stdlib Require Import ZArith NArith List String Ascii Bool Lia SpecFloat.
From stdpp Require Import base option countable gmap.
Import ListNotations.

Local Open Scope string_scope.
Local Open Scope Z_scope.

(** ** The JavaScript runtime used by the client *)

Module JS.

(** Exceptions the client can see. [RpcError] stands for whatever the RPC
    layer rejects a promise with. *)
Inductive exn : Type :=
| RangeError
| SolanaError
| RpcError (reason : string).

Inductive result (A : Type) : Type :=
| Return (a : A)
| Throw (e : exn).
Arguments Return {A} a.
Arguments Throw {A} e.

Definition bind {A B} (r : result A) (k : A -> result B) : result B :=
  match r with
  | Return a => k a
  | Throw e => Throw e
  end.

(** *** Strings *)

(** [a || d] on an operand that is a string or [undefined]: the empty
    string and [undefined] are falsy. *)
Definition or_else (a : option string) (d : string) : string :=
  match a with
  | Some (String c s) => String c s
  | _ => d
  end.

(** [s.split(sep)] for a one-character separator. *)
Fixpoint split (sep : ascii) (s : string) : list string :=
  match s with
  | EmptyString => [EmptyString]
  | String c s' =>
      if Ascii.eqb c sep then EmptyString :: split sep s'
      else match split sep s' with
           | p :: ps => String c p :: ps
           | [] => [String c EmptyString]
           end
  end.

Fixpoint repeat_char (c : ascii) (n : nat) : string :=
  match n with
  | O => EmptyString
  | S n' => String c (repeat_char c n')
  end.

(** [s.padEnd(n, c)] for a one-character filler. *)
Definition padEnd (s : string) (n : nat) (c : ascii) : string :=
  String.append s (repeat_char c (n - String.length s)).

(** [s.slice(0, n)]. *)
Definition slice0 (s : string) (n : nat) : string := substring 0 n s.

(** [new TextEncoder().encode(s)]: UTF-8, for code units below 256. *)
Fixpoint utf8 (s : string) : list N :=
  match s with
  | EmptyString => []
  | String c s' =>
      let n := N_of_ascii c in
      if (n <? 128)%N then n :: utf8 s'
      else N.lor 192 (N.shiftr n 6) :: N.lor 128 (N.land n 63) :: utf8 s'
  end.

(** [new Uint8Array(n)] followed by [.set(bytes)]: a [RangeError] when the
    source does not fit. *)
Definition uint8array_set (n : nat) (bytes : list N) : result (list N) :=
  if (List.length bytes <=? n)%nat
  then Return (bytes ++ repeat 0%N (n - List.length bytes))%list
  else Throw RangeError.

(** *** Numbers *)

Definition number : Type := spec_float.
Definition NaN : number := S754_nan.

(** The binary64 value nearest to the integer [z] (ties to even). *)
Definition of_Z (z : Z) : number := binary_normalize 53 1024 z 0 false.

Definition mul (x y : number) : number := SFmul 53 1024 x y.

(** The Number value of [m * 10 ^ e10], correctly rounded. *)
Definition of_decimal (neg : bool) (m : N) (e10 : Z) : number :=
  match m with
  | N0 => S754_zero neg
  | Npos p =>
      if 0 <=? e10 then binary_round 53 1024 neg (p * Z.to_pos (10 ^ e10)) 0
      else
        let d := 10 ^ (- e10) in
        let s := Z.max 0 (55 + Z.log2 d - Z.log2 (Zpos p)) in
        let n := Z.shiftl (Zpos p) s in
        let q := n / d in
        let r := n mod d in
        let l := if r =? 0 then loc_Exact else loc_Inexact (2 * r ?= d) in
        binary_round_aux 53 1024 neg q (- s) l
  end.

(** White space and line terminators among the code units below 256. *)
Definition isWhiteSpace (c : ascii) : bool :=
  let n := N_of_ascii c in
  ((9 <=? n) && (n <=? 13) || (n =? 32) || (n =? 160))%N.

Fixpoint trimStart (s : string) : string :=
  match s with
  | String c s' => if isWhiteSpace c then trimStart s' else s
  | EmptyString => s
  end.

Definition digit (c : ascii) : option N :=
  let n := N_of_ascii c in
  if ((48 <=? n) && (n <=? 57))%N then Some (n - 48)%N else None.

Definition hexdigit (c : ascii) : option N :=
  let n := N_of_ascii c in
  if ((48 <=? n) && (n <=? 57))%N then Some (n - 48)%N
  else if ((65 <=? n) && (n <=? 70))%N then Some (n - 55)%N
  else if ((97 <=? n) && (n <=? 102))%N then Some (n - 87)%N
  else None.

(** The longest prefix of digits in the given radix: its value continuing
    from [acc], how many digits were read, and the rest of the string. *)
Fixpoint digits (dig : ascii -> option N) (radix : N) (s : string)
         (acc : N) (count : nat) : N * nat * string :=
  match s with
  | String c s' =>
      match dig c with
      | Some d => digits dig radix s' (radix * acc + d)%N (S count)
      | None => (acc, count, s)
      end
  | EmptyString => (acc, count, s)
  end.

Definition sign (s : string) : bool * string :=
  match s with
  | String "-" t => (true, t)
  | String "+" t => (false, t)
  | _ => (false, s)
  end.

(** [parseFloat(s)]: the longest prefix of the trimmed string that is a
    [StrDecimalLiteral], or [NaN]. *)
Definition parseFloat (input : string) : number :=
  let '(neg, s) := sign (trimStart input) in
  if String.prefix "Infinity" s then S754_infinity neg else
  let '(ip, ni, s1) := digits digit 10 s 0%N O in
  let '(fp, nf, s2) :=
    match s1 with
    | String "." t => digits digit 10 t ip O
    | _ => (ip, O, s1)
    end in
  if (ni + nf =? 0)%nat then NaN else
  let ex :=
    match s2 with
    | String c t =>
        if (Ascii.eqb c "e" || Ascii.eqb c "E")%bool then
          let '(eneg, t') := sign t in
          let '(ev, ne, _) := digits digit 10 t' 0%N O in
          if (ne =? 0)%nat then 0 else cond_Zopp eneg (Z.of_N ev)
        else 0
    | EmptyString => 0
    end in
  of_decimal neg fp (ex - Z.of_nat nf).

(** [parseInt(s)] with no radix argument. *)
Definition parseInt (input : string) : number :=
  let '(neg, s) := sign (trimStart input) in
  let '(v, n, _) :=
    match s with
    | String "0" (String x t) =>
        if (Ascii.eqb x "x" || Ascii.eqb x "X")%bool
        then digits hexdigit 16 t 0%N O
        else digits digit 10 s 0%N O
    | _ => digits digit 10 s 0%N O
    end in
  if (n =? 0)%nat then NaN else of_decimal neg v 0.

(** [Math.floor(x)]. *)
Definition floor (x : number) : number :=
  match x with
  | S754_finite s m e =>
      if 0 <=? e then x
      else
        let q := Z.shiftr (Zpos m) (- e) in
        let exact := Z.shiftl q (- e) =? Zpos m in
        let z := if s then (if exact then - q else - (q + 1)) else q in
        binary_normalize 53 1024 z 0 false
  | _ => x
  end.

(** [BigInt(x)]: a [RangeError] unless [x] is an integral number. *)
Definition BigInt (x : number) : result Z :=
  match x with
  | S754_zero _ => Return 0
  | S754_finite s m e =>
      if 0 <=? e then Return (cond_Zopp s (Z.shiftl (Zpos m) e))
      else if Z.shiftl (Z.shiftr (Zpos m) (- e)) (- e) =? Zpos m
           then Return (cond_Zopp s (Z.shiftr (Zpos m) (- e)))
           else Throw RangeError
  | _ => Throw RangeError
  end.

End JS.

Import JS.

(** ** scripts/swig-client.ts *)

(** An [Address] is a branded string: [address(s)] returns [s] itself after
    checking that it is a well-formed account address. *)
Definition Address : Type := string.
Definition Signature : Type := string.

Record KeyPairSigner : Type := { signer_address : Address }.

Inductive AccountRole : Type :=
| writable
| writable_signer
| readonly
| readonly_signer.

Record IAccountMeta : Type := { meta_address : Address; meta_role : AccountRole }.

Record IInstruction : Type := {
  programAddress : Address;
  accounts : list IAccountMeta;
  data : list N
}.

(** [interface Action]. The [type] field is declared as [ActionType], but
    the declaration is erased when the script runs: the field holds whatever
    string was put there. *)
Record Action : Type := {
  type : string;
  amount : option Z;
  window : option number;
  programId : option Address;
  destination : option Address
}.

(** [type ActionType], the closed union of string literals. *)
Definition ActionType : list string :=
  [ "All"; "AllButManageAuthority"; "ManageAuthority";
    "SolLimit"; "SolRecurringLimit"; "SolDestinationLimit";
    "SolRecurringDestinationLimit";
    "TokenLimit"; "TokenRecurringLimit"; "TokenDestinationLimit";
    "TokenRecurringDestinationLimit";
    "Program"; "ProgramAll"; "ProgramCurated"; "ProgramScope";
    "SubAccount"; "StakeLimit"; "StakeRecurringLimit"; "StakeAll" ].

Definition one_of (s : string) (l : list string) : bool :=
  existsb (String.eqb s) l.

Definition isActionType (s : string) : bool := one_of s ActionType.

(** The [case] labels of the [switch] in [parsePermission], one list per
    group of labels that share a body. *)
Definition one_time_kinds : list string := ["SolLimit"; "TokenLimit"; "StakeLimit"].
Definition recurring_kinds : list string :=
  ["SolRecurringLimit"; "TokenRecurringLimit"; "StakeRecurringLimit"].
Definition destination_kinds : list string :=
  ["SolDestinationLimit"; "TokenDestinationLimit"].
Definition program_kinds : list string := ["Program"].

Record CreateWalletParams : Type := {
  cw_rootAuthority : Address;
  cw_id : string;
  cw_payer : KeyPairSigner
}.

Record CreateWalletResult : Type := {
  cw_signature : Signature;
  cw_configAddress : Address;
  cw_walletAddress : Address
}.

Record AddAuthorityParams : Type := {
  aa_walletAddress : Address;
  aa_roleId : Z;
  aa_actingRoleId : option Z;
  aa_authority : Address;
  aa_authorityType : string;
  aa_actions : list Action;
  aa_payer : KeyPairSigner;
  aa_actingSigner : option KeyPairSigner
}.

Record RemoveAuthorityParams : Type := {
  ra_walletAddress : Address;
  ra_roleId : Z;
  ra_actingRoleId : Z;
  ra_payer : KeyPairSigner;
  ra_actingSigner : KeyPairSigner
}.

Record SignTransactionParams : Type := {
  st_walletAddress : Address;
  st_walletWalletAddress : Address;
  st_roleId : Z;
  st_signer : KeyPairSigner;
  st_instructions : list IInstruction;
  st_payer : KeyPairSigner
}.

Record SignatureResult : Type := { signature : Signature }.

Record WalletInfo : Type := {
  wi_exists : bool;
  wi_roles : number;
  wi_lamports : Z
}.

(** The account record [getAccountInfo] resolves to (only the field the
    client reads). *)
Record AccountInfo : Type := { account_lamports : Z }.

Record TransactionMessage (Blockhash : Type) : Type := {
  tm_version : Z;
  tm_feePayer : Address;
  tm_lifetime : Blockhash;
  tm_instructions : list IInstruction
}.
Arguments tm_version {Blockhash} _.
Arguments tm_feePayer {Blockhash} _.
Arguments tm_lifetime {Blockhash} _.
Arguments tm_instructions {Blockhash} _.

(** Line 27, [export const SWIG_PROGRAM_ID = address("...")]. [address]
    returns its argument or throws, so in a module that has loaded the
    constant is the text of the literal; the methods hand it on and never
    inspect it. The call of [address] itself, made once when the module is
    loaded, is [load_swig_client] below. The literal holds the character
    U+5340, which is kept here as the three bytes of its UTF-8 form: no
    digit of base58 either way. *)
Definition SWIG_PROGRAM_ID : Address :=
  "SWiGsrbFun區Kt4gRMJbRvbuPBmR2jL3wfJLvboKuPk5".

(** What the client imports from [@solana/kit] and reaches over RPC. None of
    it is code of the repository: the client is stated over any
    implementation. [World] is the state of the cluster. *)
Record Kit : Type := {
  World : Type;
  Blockhash : Type;
  SignedTransaction : Type;
  isAddress : string -> bool;
  getLatestBlockhash : World -> result Blockhash;
  getAccountInfo : World -> Address -> result (option AccountInfo);
  signTransactionMessageWithSigners :
    TransactionMessage Blockhash -> result SignedTransaction;
  sendAndConfirm : World -> SignedTransaction -> result unit * World;
  getSignatureFromTransaction : SignedTransaction -> Signature
}.

Section Client.

Variable kit : Kit.

(** An [async] computation: it may change the cluster and it resolves or
    rejects. *)
Definition async (A : Type) : Type := World kit -> result A * World kit.

Definition resolve {A} (a : A) : async A := fun w => (Return a, w).

Definition await {A B} (c : async A) (k : A -> async B) : async B :=
  fun w =>
    match c w with
    | (Return a, w') => k a w'
    | (Throw e, w') => (Throw e, w')
    end.

(** A synchronous computation inside an [async] body. *)
Definition sync {A} (r : result A) : async A := fun w => (r, w).

Definition address (s : string) : result Address :=
  if isAddress kit s then Return s else Throw SolanaError.

(** The literal ['11111111111111111111111111111111'] the client writes in
    several places. *)
Definition SYSTEM_PROGRAM : string := "11111111111111111111111111111111".

Definition deriveSwigConfigAddress (id : list N) : result Address :=
  address SYSTEM_PROGRAM.

Definition deriveSwigWalletAddress (configAddress : Address) : result Address :=
  address SYSTEM_PROGRAM.

(** [private async sendTransaction]. The [signers] argument is never
    read. *)
Definition sendTransaction (instructions : list IInstruction)
           (feePayer : KeyPairSigner) (signers : option (list KeyPairSigner))
  : async Signature :=
  await (fun w => (getLatestBlockhash kit w, w)) (fun latestBlockhash =>
  let message :=
    {| tm_version := 0;
       tm_feePayer := signer_address feePayer;
       tm_lifetime := latestBlockhash;
       tm_instructions := instructions |} in
  await (sync (signTransactionMessageWithSigners kit message)) (fun signedTx =>
  await (fun w => sendAndConfirm kit w signedTx) (fun _ =>
  resolve (getSignatureFromTransaction kit signedTx)))).

(** The first three statements of [createWallet]: the identifier as the
    32-byte array handed to the address derivation. *)
Definition encodeId (id : string) : result (list N) :=
  let idBytes := utf8 (slice0 (padEnd id 32 "000"%char) 32) in
  uint8array_set 32 idBytes.

Definition createWallet (params : CreateWalletParams) : async CreateWalletResult :=
  await (sync (encodeId (cw_id params))) (fun idArray =>
  await (sync (deriveSwigConfigAddress idArray)) (fun configAddress =>
  await (sync (deriveSwigWalletAddress configAddress)) (fun walletAddress =>
  await (sync (address SYSTEM_PROGRAM)) (fun system =>
  let createIx :=
    {| programAddress := SWIG_PROGRAM_ID;
       accounts :=
         [ {| meta_address := configAddress; meta_role := writable |};
           {| meta_address := signer_address (cw_payer params);
              meta_role := writable_signer |};
           {| meta_address := walletAddress; meta_role := writable |};
           {| meta_address := system; meta_role := readonly |} ];
       data := [] |} in
  await (sendTransaction [createIx] (cw_payer params) None) (fun signature =>
  resolve {| cw_signature := signature;
             cw_configAddress := configAddress;
             cw_walletAddress := walletAddress |}))))).

Definition addAuthorityIx (params : AddAuthorityParams) (system : Address)
  : IInstruction :=
  {| programAddress := SWIG_PROGRAM_ID;
     accounts :=
       [ {| meta_address := aa_walletAddress params; meta_role := writable |};
         {| meta_address := signer_address (aa_payer params);
            meta_role := writable_signer |};
         {| meta_address := system; meta_role := readonly |} ]
       ++ match aa_actingSigner params with
          | Some s => [ {| meta_address := signer_address s;
                           meta_role := readonly_signer |} ]
          | None => []
          end;
     data := [] |}.

Definition addAuthority (params : AddAuthorityParams) : async SignatureResult :=
  await (sync (address SYSTEM_PROGRAM)) (fun system =>
  let addAuthorityIx := addAuthorityIx params system in
  let signers :=
    match aa_actingSigner params with
    | Some s => [aa_payer params; s]
    | None => [aa_payer params]
    end in
  await (sendTransaction [addAuthorityIx] (aa_payer params) (Some signers))
        (fun signature => resolve {| signature := signature |})).

Definition removeAuthorityIx (params : RemoveAuthorityParams) (system : Address)
  : IInstruction :=
  {| programAddress := SWIG_PROGRAM_ID;
     accounts :=
       [ {| meta_address := ra_walletAddress params; meta_role := writable |};
         {| meta_address := signer_address (ra_payer params);
            meta_role := writable_signer |};
         {| meta_address := system; meta_role := readonly |};
         {| meta_address := signer_address (ra_actingSigner params);
            meta_role := readonly_signer |} ];
     data := [] |}.

Definition removeAuthority (params : RemoveAuthorityParams) : async SignatureResult :=
  await (sync (address SYSTEM_PROGRAM)) (fun system =>
  let removeAuthorityIx := removeAuthorityIx params system in
  await (sendTransaction [removeAuthorityIx] (ra_payer params)
                         (Some [ra_payer params; ra_actingSigner params]))
        (fun signature => resolve {| signature := signature |})).

Definition signTransaction (params : SignTransactionParams) : async SignatureResult :=
  let signIx :=
    {| programAddress := SWIG_PROGRAM_ID;
       accounts :=
         [ {| meta_address := st_walletAddress params; meta_role := writable |};
           {| meta_address := st_walletWalletAddress params; meta_role := writable |};
           {| meta_address := signer_address (st_signer params);
              meta_role := readonly_signer |} ];
       data := [] |} in
  await (sendTransaction [signIx] (st_payer params)
                         (Some [st_payer params; st_signer params]))
        (fun signature => resolve {| signature := signature |}).

Definition getWalletInfo (configAddress : Address) : async WalletInfo :=
  await (fun w => (getAccountInfo kit w configAddress, w)) (fun accountInfo =>
  match accountInfo with
  | None =>
      resolve {| wi_exists := false; wi_roles := of_Z 0; wi_lamports := 0 |}
  | Some value =>
      resolve {| wi_exists := true; wi_roles := of_Z 0;
                 wi_lamports := account_lamports value |}
  end).

(** The amount expression of [parsePermission]:
    [BigInt(Math.floor(parseFloat(field || '0') * 1e9))]. *)
Definition lamports (field : option string) : result Z :=
  BigInt (floor (mul (parseFloat (or_else field "0")) (of_Z 1000000000))).

Definition bare (type : string) : Action :=
  {| type := type; amount := None; window := None;
     programId := None; destination := None |}.

Definition parsePermission (permission : string) : result Action :=
  let parts := split ":" permission in
  let type := nth 0 parts "" in
  if one_of type one_time_kinds then
    bind (lamports (nth_error parts 1)) (fun a =>
    Return {| type := type; amount := Some a; window := None;
              programId := None; destination := None |})
  else if one_of type recurring_kinds then
    bind (lamports (nth_error parts 1)) (fun a =>
    Return {| type := type; amount := Some a;
              window := Some (parseInt (or_else (nth_error parts 2) "86400"));
              programId := None; destination := None |})
  else if one_of type destination_kinds then
    bind (address (or_else (nth_error parts 1) SYSTEM_PROGRAM)) (fun d =>
    bind (lamports (nth_error parts 2)) (fun a =>
    Return {| type := type; amount := Some a; window := None;
              programId := None; destination := Some d |}))
  else if one_of type program_kinds then
    bind (address (or_else (nth_error parts 1) SYSTEM_PROGRAM)) (fun p =>
    Return {| type := type; amount := None; window := None;
              programId := Some p; destination := None |})
  else Return (bare type).

End Client.

(** What importing [./swig-client] runs before any function of the module
    can be called: the initialiser of [SWIG_PROGRAM_ID] at line 27 applies
    [address] to the literal. When that call throws, the import throws and
    the importing script ends there. *)
Definition load_swig_client (kit : Kit) : result Address :=
  address kit SWIG_PROGRAM_ID.

(** The kind field of a permission string: the text before the first
    colon. *)
Definition kind_of (permission : string) : string :=
  nth 0 (split ":" permission) "".

(** A field of a permission string that is absent or empty. *)
Definition omitted (field : option string) : Prop :=
  field = None \/ field = Some "".

(** ** A cluster to run the client against

    An implementation of [Kit] used to evaluate the client on concrete
    requests. Account addresses are checked as the library documents it
    (base58 text of 32 to 44 characters that decodes to 32 bytes). A message
    is signed by the signers attached to it, and signing throws when a
    signature the transaction needs is missing. The cluster confirms every
    transaction that reaches it and keeps it in a log. *)

Module Base58.

Definition alphabet : string :=
  "123456789ABCDEFGHJKLMNPQRSTUVWXYZabcdefghijkmnopqrstuvwxyz".

Fixpoint index_of (c : ascii) (s : string) (i : N) : option N :=
  match s with
  | EmptyString => None
  | String x s' => if Ascii.eqb x c then Some i else index_of c s' (i + 1)%N
  end.

Fixpoint leading_ones (s : string) : nat * string :=
  match s with
  | String "1" s' => let '(n, t) := leading_ones s' in (S n, t)
  | _ => (O, s)
  end.

Fixpoint value (s : string) (acc : N) : option N :=
  match s with
  | EmptyString => Some acc
  | String c s' =>
      match index_of c alphabet 0 with
      | Some d => value s' (58 * acc + d)%N
      | None => None
      end
  end.

Definition byteLength (s : string) : option nat :=
  let '(zeros, tail) := leading_ones s in
  match value tail 0 with
  | Some 0%N => Some zeros
  | Some v => Some (zeros + N.to_nat (N.log2 v / 8 + 1))%nat
  | None => None
  end.

Definition isAddress (s : string) : bool :=
  ((32 <=? String.length s) && (String.length s <=? 44))%nat
  && match byteLength s with
     | Some n => (n =? 32)%nat
     | None => false
     end.

End Base58.

Record Cluster : Type := {
  cluster_accounts : list (Address * AccountInfo);
  cluster_log : list (TransactionMessage unit)
}.

Fixpoint find_account (a : Address) (l : list (Address * AccountInfo))
  : option AccountInfo :=
  match l with
  | [] => None
  | (k, v) :: l' => if String.eqb k a then Some v else find_account a l'
  end.

(** The signers a message brings along. [sendTransaction] sets the fee
    payer by its address ([setTransactionMessageFeePayer], not the variant
    that takes the signer), and the account metas the client builds hold an
    address and a role: no message of the client has a signer attached. *)
Definition attached_signers {Blockhash : Type} (m : TransactionMessage Blockhash)
  : list KeyPairSigner := [].

Definition signs (role : AccountRole) : bool :=
  match role with
  | writable_signer | readonly_signer => true
  | writable | readonly => false
  end.

(** The addresses whose signature a transaction needs: the fee payer and
    the accounts that have a signer role. *)
Definition required_signatures {Blockhash : Type} (m : TransactionMessage Blockhash)
  : list Address :=
  tm_feePayer m
  :: map meta_address
         (List.filter (fun a => signs (meta_role a))
                      (flat_map accounts (tm_instructions m))).

(** [signTransactionMessageWithSigners] of the library: the message is
    signed by the signers attached to it, and the call throws unless the
    transaction is then fully signed. *)
Definition sign_with_attached {Blockhash : Type} (m : TransactionMessage Blockhash)
  : result (TransactionMessage Blockhash) :=
  if forallb (fun a => existsb (fun s => String.eqb (signer_address s) a)
                               (attached_signers m))
             (required_signatures m)
  then Return m
  else Throw SolanaError.

Definition confirming : Kit :=
  {| World := Cluster;
     Blockhash := unit;
     SignedTransaction := TransactionMessage unit;
     isAddress := Base58.isAddress;
     getLatestBlockhash := fun _ => Return tt;
     getAccountInfo := fun w a => Return (find_account a (cluster_accounts w));
     signTransactionMessageWithSigners := sign_with_attached;
     sendAndConfirm := fun w tx =>
       (Return tt, {| cluster_accounts := cluster_accounts w;
                      cluster_log := tx :: cluster_log w |});
     getSignatureFromTransaction := fun _ => "signature" |}.

Definition empty_cluster : Cluster :=
  {| cluster_accounts := []; cluster_log := [] |}.

(** ** The roles, the budget ledger and the authorization of requests

    The client only submits instructions; the store of the roles, the
    validation of delegations and the bookkeeping that decides whether a
    role may spend are not part of [scripts/]. This module follows the
    specification's description of them. *)

Module Engine.

Abbreviation RoleId := N (only parsing).
Abbreviation Id := N (only parsing).
Abbreviation Timestamp := Z (only parsing).

(** Modelled from the spec: the closed set of action kinds of the Action
    Model (section 4.1) with their parameters; the repository has no such
    data type beyond the client's [Action] record. Identifiers are opaque
    values with equality, amounts and window lengths are natural numbers.
    The parameter column of the table is shared by the three staking kinds;
    [StakeAll] is the one without a cap. *)
Inductive Action : Type :=
| Universal
| ManageRoles
| AllExceptManageRoles
| ProgramAny
| ProgramOne (programId : Id)
| ProgramCurated
| ProgramScoped (programId : Id) (isolatedBalance : N)
| CurrencyOnce (amount : N)
| CurrencyRecurring (amount : N) (windowLength : N)
| CurrencyToDestination (destination : Id) (amount : N)
| CurrencyRecurringToDestination (destination : Id) (amount : N) (windowLength : N)
| TokenOnce (mint : Id) (amount : N)
| TokenRecurring (mint : Id) (amount : N) (windowLength : N)
| TokenToDestination (mint : Id) (amount : N) (destination : Id)
| TokenRecurringToDestination (mint : Id) (amount : N) (destination : Id) (windowLength : N)
| StakeOnce (amount : N)
| StakeRecurring (amount : N) (windowLength : N)
| StakeAll
| SubAccount.

#[global] Instance Action_eq_dec : EqDecision Action.
Proof. solve_decision. Defined.

Definition Action_encode (a : Action) : nat * list N :=
  match a with
  | Universal => (0, [])
  | ManageRoles => (1, [])
  | AllExceptManageRoles => (2, [])
  | ProgramAny => (3, [])
  | ProgramOne p => (4, [p])
  | ProgramCurated => (5, [])
  | ProgramScoped p b => (6, [p; b])
  | CurrencyOnce x => (7, [x])
  | CurrencyRecurring x w => (8, [x; w])
  | CurrencyToDestination d x => (9, [d; x])
  | CurrencyRecurringToDestination d x w => (10, [d; x; w])
  | TokenOnce m x => (11, [m; x])
  | TokenRecurring m x w => (12, [m; x; w])
  | TokenToDestination m x d => (13, [m; x; d])
  | TokenRecurringToDestination m x d w => (14, [m; x; d; w])
  | StakeOnce x => (15, [x])
  | StakeRecurring x w => (16, [x; w])
  | StakeAll => (17, [])
  | SubAccount => (18, [])
  end%nat.

Definition Action_decode (c : nat * list N) : option Action :=
  match c with
  | (0, []) => Some Universal
  | (1, []) => Some ManageRoles
  | (2, []) => Some AllExceptManageRoles
  | (3, []) => Some ProgramAny
  | (4, [p]) => Some (ProgramOne p)
  | (5, []) => Some ProgramCurated
  | (6, [p; b]) => Some (ProgramScoped p b)
  | (7, [x]) => Some (CurrencyOnce x)
  | (8, [x; w]) => Some (CurrencyRecurring x w)
  | (9, [d; x]) => Some (CurrencyToDestination d x)
  | (10, [d; x; w]) => Some (CurrencyRecurringToDestination d x w)
  | (11, [m; x]) => Some (TokenOnce m x)
  | (12, [m; x; w]) => Some (TokenRecurring m x w)
  | (13, [m; x; d]) => Some (TokenToDestination m x d)
  | (14, [m; x; d; w]) => Some (TokenRecurringToDestination m x d w)
  | (15, [x]) => Some (StakeOnce x)
  | (16, [x; w]) => Some (StakeRecurring x w)
  | (17, []) => Some StakeAll
  | (18, []) => Some SubAccount
  | _ => None
  end%nat.

#[global] Instance Action_countable : Countable Action :=
  inj_countable Action_encode Action_decode
                ltac:(intros a; destruct a; reflexivity).

(** Modelled from the spec: what a consumable kind bounds (section 4.1):
    the limit, the window length of a recurring kind (absent for a one-time
    kind, whose window is infinite) and the destination of a
    destination-scoped kind. *)
Record Budget : Type := {
  limit : N;
  windowLength : option N;
  destination : option Id
}.

(** Modelled from the spec: the consumable kinds of section 4.1 and their
    bounds. [ProgramScoped] is bounded by its isolated balance (section
    4.4); the kinds that are not listed here consume nothing. *)
Definition budget (a : Action) : option Budget :=
  match a with
  | ProgramScoped _ b =>
      Some {| limit := b; windowLength := None; destination := None |}
  | CurrencyOnce x | TokenOnce _ x | StakeOnce x =>
      Some {| limit := x; windowLength := None; destination := None |}
  | CurrencyRecurring x w | TokenRecurring _ x w | StakeRecurring x w =>
      Some {| limit := x; windowLength := Some w; destination := None |}
  | CurrencyToDestination d x | TokenToDestination _ x d =>
      Some {| limit := x; windowLength := None; destination := Some d |}
  | CurrencyRecurringToDestination d x w | TokenRecurringToDestination _ x d w =>
      Some {| limit := x; windowLength := Some w; destination := Some d |}
  | _ => None
  end.

(** Modelled from the spec: the error taxonomy (section 7). *)
Inductive Reason : Type :=
| NotFound
| DuplicateId
| IdOutOfRange
| RootConflict
| CannotRemoveRoot
| CannotModifyRoot
| InsufficientPrivilege
| PrivilegeEscalation
| PermissionDenied
| WrongDestination
| LimitExceeded
| ClockRegression.

(** Modelled from the spec: the result [Ok | Rejected(reason)] of a request
    (sections 4.4 and 4.5). *)
Inductive Outcome : Type :=
| Ok
| Rejected (reason : Reason).

(** Modelled from the spec: a budget entry (section 3): the amount consumed
    in the current window and the start of that window. The owning role id
    and the action it tracks are the key the entry is stored under. *)
Record BudgetEntry : Type := {
  consumed : N;
  window_start : Timestamp
}.

(** Modelled from the spec: the Budget Ledger (section 2), keyed by role id
    and action instance. *)
Abbreviation Ledger := (gmap (RoleId * Action) BudgetEntry) (only parsing).

(** Modelled from the spec: the entry created on the first consumption
    attempt (section 3): nothing consumed, in a window that starts now. *)
Definition fresh (now : Timestamp) : BudgetEntry :=
  {| consumed := 0; window_start := now |}.

(** Modelled from the spec: the condition of the window rollover (section
    4.4), "the action is recurring and now - window_start >= windowLength". *)
Definition elapsed (b : Budget) (e : BudgetEntry) (now : Timestamp) : bool :=
  match windowLength b with
  | Some w => Z.of_N w <=? now - window_start e
  | None => false
  end.

(** Modelled from the spec: the window rollover (section 4.4), "reset
    consumed = 0, window_start = now before checking". *)
Definition rollover (b : Budget) (now : Timestamp) (e : BudgetEntry) : BudgetEntry :=
  if elapsed b e now then {| consumed := 0; window_start := now |} else e.

(** Modelled from the spec: the destination check (section 4.4), "the
    requested destination [must] exactly match the entry's configured
    destination", for the kinds that have one. *)
Definition destination_ok (b : Budget) (requested : option Id) : bool :=
  match destination b with
  | Some d => bool_decide (requested = Some d)
  | None => true
  end.

(** Modelled from the spec: the steps of section 4.4 on the located entry,
    in the order of the text: rollover, destination match, limit check,
    consumption. A rejection hands back the entry it was given ("leave
    state unchanged"). *)
Definition consume (b : Budget) (e : BudgetEntry) (requested : option Id)
           (amount : N) (now : Timestamp) : Outcome * BudgetEntry :=
  let e1 := rollover b now e in
  if negb (destination_ok b requested) then (Rejected WrongDestination, e)
  else if (limit b <? consumed e1 + amount)%N then (Rejected LimitExceeded, e)
  else (Ok, {| consumed := consumed e1 + amount;
               window_start := window_start e1 |}).

(** Modelled from the spec: [checkAndConsume] (section 4.4). The entry is
    located or created; the ledger is written only when the call is
    accepted. A kind without a budget has nothing to consume. *)
Definition checkAndConsume (L : Ledger) (roleId : RoleId) (a : Action)
           (requested : option Id) (amount : N) (now : Timestamp)
  : Outcome * Ledger :=
  match budget a with
  | None => (Ok, L)
  | Some b =>
      let e := default (fresh now) (L !! (roleId, a)) in
      match consume b e requested amount now with
      | (Ok, e') => (Ok, <[(roleId, a) := e']> L)
      | (Rejected r, _) => (Rejected r, L)
      end
  end.

(** A call on the entry of one role and action, and what is observed
    after each call of a sequence: the outcome and the ledger. *)
Record Call : Type := {
  call_amount : N;
  call_destination : option Id;
  call_now : Timestamp
}.

Definition call (roleId : RoleId) (a : Action) (L : Ledger) (c : Call)
  : Outcome * Ledger :=
  checkAndConsume L roleId a (call_destination c) (call_amount c) (call_now c).

Fixpoint trace (roleId : RoleId) (a : Action) (L : Ledger) (calls : list Call)
  : list (Outcome * Ledger) :=
  match calls with
  | [] => []
  | c :: cs => call roleId a L c :: trace roleId a (snd (call roleId a L c)) cs
  end.

(** What is observed of the window of the stored entry: its start. *)
Definition window_of (roleId : RoleId) (a : Action) (L : Ledger) : option Timestamp :=
  window_start <$> L !! (roleId, a).

(** The resets observed along a sequence of calls: the times of the calls
    after which the stored entry is in another window than before. *)
Fixpoint reset_times (roleId : RoleId) (a : Action) (L : Ledger) (calls : list Call)
  : list Timestamp :=
  match calls with
  | [] => []
  | c :: cs =>
      let L' := snd (call roleId a L c) in
      ((if bool_decide (window_of roleId a L' = window_of roleId a L)
        then [] else [call_now c])
       ++ reset_times roleId a L' cs)%list
  end.

(** The end of the window in force, [window_start + windowLength], is the
    one boundary a stored entry has. A call crosses it when it is accepted
    at or after it; [crossing_times] lists the times of these calls. *)
Definition crosses (roleId : RoleId) (a : Action) (w : N) (L : Ledger) (c : Call) : bool :=
  match L !! (roleId, a), fst (call roleId a L c) with
  | Some e, Ok => window_start e + Z.of_N w <=? call_now c
  | _, _ => false
  end.

Fixpoint crossing_times (roleId : RoleId) (a : Action) (w : N) (L : Ledger)
         (calls : list Call) : list Timestamp :=
  match calls with
  | [] => []
  | c :: cs =>
      ((if crosses roleId a w L c then [call_now c] else [])
       ++ crossing_times roleId a w (snd (call roleId a L c)) cs)%list
  end.

(** Times that lie at least a window length apart, the first of them at
    least a window length after [t]. *)
Fixpoint spaced (w : N) (t : Timestamp) (times : list Timestamp) : Prop :=
  match times with
  | [] => True
  | x :: xs => t + Z.of_N w <= x /\ spaced w x xs
  end.

(** What one call does to a recurring entry [e], read off the outcome [o]
    and the entry [e'] stored after it. The call is accepted exactly when
    the destination matches and the amount fits: in the window in force
    when its end has not been reached, in a new and empty window otherwise.
    An accepted call at or after the end of the window leaves the entry
    reset: the window starts at the call and holds what the call consumed.
    An accepted call before the end adds to the same window. A rejected
    call leaves the entry as it was. *)
Definition step (b : Budget) (w : N) (e : BudgetEntry) (c : Call) (o : Outcome)
           (e' : BudgetEntry) : Prop :=
  let over := window_start e + Z.of_N w <=? call_now c in
  let base := if over then 0%N else consumed e in
  (o = Ok <-> destination_ok b (call_destination c) = true
              /\ (base + call_amount c <= limit b)%N)
  /\ (o = Ok ->
      e' = {| consumed := base + call_amount c;
              window_start := if over then call_now c else window_start e |})
  /\ (o <> Ok -> e' = e).

Fixpoint steps (roleId : RoleId) (a : Action) (b : Budget) (w : N) (e : BudgetEntry)
         (calls : list Call) (observed : list (Outcome * Ledger)) : Prop :=
  match calls, observed with
  | [], [] => True
  | c :: cs, (o, L') :: os =>
      exists e', L' !! (roleId, a) = Some e'
                 /\ step b w e c o e'
                 /\ steps roleId a b w e' cs os
  | _, _ => False
  end.

(** Timestamps that never go back, starting from [t]. *)
Fixpoint nondecreasing (t : Timestamp) (calls : list Call) : Prop :=
  match calls with
  | [] => True
  | c :: cs => t <= call_now c /\ nondecreasing (call_now c) cs
  end.

(** Modelled from the spec: a role of the Role Store (section 3): its
    authority descriptor (opaque), the role that created it, and its
    ordered granted actions. The role id is the key it is stored under. *)
Record Role : Type := {
  authority : N;
  parent : option RoleId;
  actions : list Action
}.

(** Modelled from the spec: the Role Store (section 4.2), role id to role. *)
Abbreviation RoleStore := (gmap RoleId Role) (only parsing).


(** Modelled from the spec: the actions that cover a kind they are not
    (section 4.1): [Universal] grants every kind, [AllExceptManageRoles]
    every kind but the management ones, [ProgramAny] any program, and
    [ProgramCurated] the programs of the curated list, which is data the
    engine reads. *)
Definition wildcard_covers (curated : Id -> bool) (held wanted : Action) : bool :=
  match held, wanted with
  | Universal, _ => true
  | AllExceptManageRoles, (ManageRoles | Universal) => false
  | AllExceptManageRoles, _ => true
  | ProgramAny, ProgramOne _ => true
  | ProgramCurated, ProgramOne p => curated p
  | _, _ => false
  end.


(** Modelled from the spec: the Treasury (section 3): the roles, the budget
    entries and the version counter that every mutation of the Role Store
    increments. *)
Record Treasury : Type := {
  roles : RoleStore;
  entries : Ledger;
  version : N
}.

(** Modelled from the spec: [insert] of the Role Store (section 4.2). *)
Definition store_insert (T : Treasury) (roleId : RoleId) (role : Role)
  : Outcome * Treasury :=
  if (255 <? roleId)%N then (Rejected IdOutOfRange, T)
  else if (roleId =? 0)%N && bool_decide (is_Some (roles T !! 0%N))
       then (Rejected RootConflict, T)
  else if bool_decide (is_Some (roles T !! roleId)) then (Rejected DuplicateId, T)
  else (Ok, {| roles := <[roleId := role]> (roles T);
               entries := entries T;
               version := version T + 1 |}).

(** Modelled from the spec: [remove] of the Role Store (section 4.2): it
    "fails with CannotRemoveRoot if roleId==0; on success cascades removal
    of all associated BudgetEntries". *)
Definition store_remove (T : Treasury) (roleId : RoleId) : Outcome * Treasury :=
  if (roleId =? 0)%N then (Rejected CannotRemoveRoot, T)
  else match roles T !! roleId with
       | None => (Rejected NotFound, T)
       | Some _ =>
           (Ok, {| roles := delete roleId (roles T);
                   entries := filter (fun kv => fst (fst kv) <> roleId) (entries T);
                   version := version T + 1 |})
       end.

(** Modelled from the spec: [mutateActions] of the Role Store (section
    4.2). The entries of the actions that are removed go with them (section
    3). *)
Definition mutateActions (T : Treasury) (roleId : RoleId) (added removed : list Action)
  : Outcome * Treasury :=
  match roles T !! roleId with
  | None => (Rejected NotFound, T)
  | Some role =>
      (Ok, {| roles :=
                <[roleId := {| authority := authority role;
                               parent := parent role;
                               actions :=
                                 List.filter (fun a => negb (bool_decide (a ∈ removed)))
                                             (actions role)
                                 ++ added |}]> (roles T);
              entries :=
                filter (fun kv => ~ (fst (fst kv) = roleId /\ snd (fst kv) ∈ removed))
                       (entries T);
              version := version T + 1 |})
  end.

(** Modelled from the spec: the management requests (sections 3 and 4.5):
    [AddRole], [AddAction], [RemoveAction] and [RemoveRole], each naming the
    role it is about. *)
Inductive Management : Type :=
| AddRole (roleId : RoleId) (descriptor : N) (granted : list Action)
| AddAction (roleId : RoleId) (granted : list Action)
| RemoveAction (roleId : RoleId) (revoked : list Action)
| RemoveRole (roleId : RoleId).

Definition target (m : Management) : RoleId :=
  match m with
  | AddRole roleId _ _ | AddAction roleId _ | RemoveAction roleId _ | RemoveRole roleId =>
      roleId
  end.

(** The actions a request attempts to grant. *)
Definition granted_by (m : Management) : list Action :=
  match m with
  | AddRole _ _ granted | AddAction _ granted => granted
  | RemoveAction _ _ | RemoveRole _ => []
  end.

(** The requests that alter a role without removing it. *)
Definition mutates (m : Management) : bool :=
  match m with
  | RemoveRole _ => false
  | _ => true
  end.

(** An action with its amount left out: the kind and the parameters two
    limits must share to be compared. *)
Definition scope (a : Action) : Action :=
  match a with
  | ProgramScoped p _ => ProgramScoped p 0
  | CurrencyOnce _ => CurrencyOnce 0
  | CurrencyRecurring _ w => CurrencyRecurring 0 w
  | CurrencyToDestination d _ => CurrencyToDestination d 0
  | CurrencyRecurringToDestination d _ w => CurrencyRecurringToDestination d 0 w
  | TokenOnce m _ => TokenOnce m 0
  | TokenRecurring m _ w => TokenRecurring m 0 w
  | TokenToDestination m _ d => TokenToDestination m 0 d
  | TokenRecurringToDestination m _ d w => TokenRecurringToDestination m 0 d w
  | StakeOnce _ => StakeOnce 0
  | StakeRecurring _ w => StakeRecurring 0 w
  | _ => a
  end.

(** Modelled from the spec: "the granting role's own remaining (or total,
    for one-time) limit" (section 4.3): what is left in the stored window of
    a recurring action, the whole limit of a one-time action. *)
Definition own_limit (L : Ledger) (roleId : RoleId) (held : Action) (b : Budget) : N :=
  match windowLength b, L !! (roleId, held) with
  | Some _, Some e => limit b - consumed e
  | _, _ => limit b
  end.

(** Modelled from the spec: when an action a role holds covers an action it
    attempts to grant (sections 4.1 and 4.3): through a wildcard, or as the
    same kind with the same parameters and, for a parameterized limit, an
    amount that does not exceed the granting role's own limit. *)
Definition covers_grant (curated : Id -> bool) (L : Ledger) (roleId : RoleId)
           (held granted : Action) : bool :=
  wildcard_covers curated held granted
  || match budget held, budget granted with
     | Some own, Some given =>
         bool_decide (scope held = scope granted)
         && (limit given <=? own_limit L roleId held own)%N
     | None, None => bool_decide (held = granted)
     | _, _ => false
     end.

(** Modelled from the spec: whether an action is among the effective
    actions of a role, "the logical union of all its granted Action kinds"
    (section 4.1). *)
Definition effective (curated : Id -> bool) (L : Ledger) (roleId : RoleId) (role : Role)
           (granted : Action) : bool :=
  existsb (fun held => covers_grant curated L roleId held granted) (actions role).

Definition holds_management (role : Role) : bool :=
  existsb (fun a => match a with
                    | ManageRoles | Universal => true
                    | _ => false
                    end) (actions role).

(** Modelled from the spec: the Delegation Validator (section 4.3), after
    the Role Store has confirmed that the acting role exists (section 4.5).
    Every rejection carries one reason (section 7); where several rules are
    broken at once the reason is the one the properties of section 8 name:
    role 0 is protected whoever asks ([CannotRemoveRoot] for its removal,
    [CannotModifyRoot] for any other request on it by a role that is not
    root), then a role other than root that attempts to grant an action
    outside its effective actions is refused with [PrivilegeEscalation], and
    last the acting role must hold [ManageRoles] or [Universal], which root
    holds implicitly. *)
Definition validate (curated : Id -> bool) (T : Treasury) (actorId : RoleId)
           (m : Management) : Outcome :=
  match roles T !! actorId with
  | None => Rejected NotFound
  | Some acting =>
      if negb (mutates m) && (target m =? 0)%N then Rejected CannotRemoveRoot
      else if mutates m && (target m =? 0)%N && negb (actorId =? 0)%N
           then Rejected CannotModifyRoot
      else if negb (actorId =? 0)%N
              && negb (forallb (effective curated (entries T) actorId acting)
                               (granted_by m))
           then Rejected PrivilegeEscalation
      else if negb ((actorId =? 0)%N || holds_management acting)
           then Rejected InsufficientPrivilege
      else Ok
  end.

(** Modelled from the spec: a management request through the engine
    (section 4.5): validated first, then carried out by the Role Store; a
    rejection changes nothing. A new role has the acting role for its
    parent. *)
Definition manage (curated : Id -> bool) (T : Treasury) (actorId : RoleId)
           (m : Management) : Outcome * Treasury :=
  match validate curated T actorId m with
  | Rejected r => (Rejected r, T)
  | Ok =>
      match m with
      | AddRole roleId descriptor granted =>
          store_insert T roleId {| authority := descriptor;
                                   parent := Some actorId;
                                   actions := granted |}
      | AddAction roleId granted => mutateActions T roleId granted []
      | RemoveAction roleId revoked => mutateActions T roleId [] revoked
      | RemoveRole roleId => store_remove T roleId
      end
  end.


(** The scenario of section 8: role 1 is granted a recurring allowance of
    100 per window of 86400. *)
Definition daily : Action := CurrencyRecurring 100 86400.

Definition spent (amount : N) (since : Timestamp) : Ledger :=
  {[ (1%N, daily) := {| consumed := amount; window_start := since |} ]}.




(** No program is on the curated list. *)
Definition no_curated : Id -> bool := fun _ => false.

(** The scenario of section 8: root holds [Universal]; the manager, role 1,
    holds [ManageRoles] and a recurring allowance of 10 per window [W]. *)
Definition root_role : Role :=
  {| authority := 0%N; parent := None; actions := [Universal] |}.

Definition manager (W : N) : Role :=
  {| authority := 1%N; parent := Some 0%N;
     actions := [ManageRoles; CurrencyRecurring 10 W] |}.

Definition managed (W : N) : Treasury :=
  {| roles := <[1%N := manager W]> {[ 0%N := root_role ]};
     entries := ∅;
     version := 1 |}.

End Engine.

(** ** Concrete requests used to evaluate the client *)

Definition payer_key : KeyPairSigner :=
  {| signer_address := "BiE2BPx1111111111111111111111111111111111111" |}.
Definition manager_key : KeyPairSigner :=
  {| signer_address := "CEo11111111111111111111111111111111111111111" |}.
Definition treasury_address : Address := "AmogV5r8MhTQkSQj27xm4vo3gCNZLdweCxA4JWAqkMe4".
Definition treasury_wallet : Address := "2ZZ95io7FZiP3JAxMf4kSRdhFngCyXfty4FdYrU7ZbmP".

(** An identifier of forty characters. *)
Definition long_id : string := "agent-org-treasury-for-the-defi-division".

Definition create_long : CreateWalletParams :=
  {| cw_rootAuthority := signer_address payer_key;
     cw_id := long_id;
     cw_payer := payer_key |}.

Definition create_short : CreateWalletParams :=
  {| cw_rootAuthority := signer_address payer_key;
     cw_id := "my-treasury";
     cw_payer := payer_key |}.

(** A request made by role 1 for a new role 2 that holds [All]. *)
Definition escalating_grant : AddAuthorityParams :=
  {| aa_walletAddress := treasury_address;
     aa_roleId := 2;
     aa_actingRoleId := Some 1;
     aa_authority := signer_address payer_key;
     aa_authorityType := "ed25519";
     aa_actions := [bare "All"];
     aa_payer := payer_key;
     aa_actingSigner := Some manager_key |}.

(** The same request for a role that is granted nothing. *)
Definition modest_grant : AddAuthorityParams :=
  {| aa_walletAddress := treasury_address;
     aa_roleId := 100;
     aa_actingRoleId := Some 1;
     aa_authority := signer_address payer_key;
     aa_authorityType := "ed25519";
     aa_actions := [];
     aa_payer := payer_key;
     aa_actingSigner := Some manager_key |}.

(** The removal of a role, asked for by the acting role given. *)
Definition remove_role (roleId acting : Z) : RemoveAuthorityParams :=
  {| ra_walletAddress := treasury_address;
     ra_roleId := roleId;
     ra_actingRoleId := acting;
     ra_payer := payer_key;
     ra_actingSigner := manager_key |}.

Definition funded_cluster : Cluster :=
  {| cluster_accounts := [(treasury_address, {| account_lamports := 99890880 |})];
     cluster_log := [] |}.

(** ** The scripts: scripts/add-agent.ts and scripts/create-treasury.ts *)

(** [s.trim()]: [trimStart] and the same at the end. *)
Fixpoint trimEnd (s : string) : string :=
  match s with
  | EmptyString => EmptyString
  | String c s' =>
      match trimEnd s' with
      | EmptyString => if isWhiteSpace c then EmptyString else String c EmptyString
      | t => String c t
      end
  end.

Definition trim (s : string) : string := trimEnd (trimStart s).

(** [array.map(f)] for a callback that can throw: the elements are visited
    from left to right and the first exception ends the call. *)
Fixpoint map_throwing {A B : Type} (f : A -> result B) (l : list A) : result (list B) :=
  match l with
  | [] => Return []
  | x :: xs => bind (f x) (fun y => bind (map_throwing f xs) (fun ys => Return (y :: ys)))
  end.

(** The position of the first occurrence of a character: the text before it
    and the text after it. *)
Fixpoint cut_at (c : ascii) (s : string) : option (string * string) :=
  match s with
  | EmptyString => None
  | String x s' =>
      if Ascii.eqb x c then Some (EmptyString, s')
      else match cut_at c s' with
           | Some (before, after) => Some (String x before, after)
           | None => None
           end
  end.

(** The replacement text of [s.replace(pattern, replacement)] for a string
    pattern: [$$] is a dollar, [$&] the matched text, [$`] the text before
    the match, [$'] the text after it; with no capture group every other
    dollar stands for itself. *)
Fixpoint substitution (matched before after replacement : string) : string :=
  match replacement with
  | EmptyString => EmptyString
  | String c r =>
      if Ascii.eqb c "$" then
        match r with
        | String x r' =>
            if Ascii.eqb x "$" then String "$" (substitution matched before after r')
            else if Ascii.eqb x "&" then
              String.append matched (substitution matched before after r')
            else if Ascii.eqb x "`" then
              String.append before (substitution matched before after r')
            else if Ascii.eqb x "'" then
              String.append after (substitution matched before after r')
            else String "$" (substitution matched before after r)
        | EmptyString => String "$" EmptyString
        end
      else String c (substitution matched before after r)
  end.

(** [s.replace(c, replacement)] for a pattern of one character: the first
    occurrence only. *)
Definition replace (s : string) (c : ascii) (replacement : string) : string :=
  match cut_at c s with
  | Some (before, after) =>
      String.append before
        (String.append (substitution (String c EmptyString) before after replacement)
                       after)
  | None => s
  end.

(** What a script reaches besides the cluster: the environment variable
    [HOME], the key files ([readKeyFile path] stands for
    [new Uint8Array(await Bun.file(path).json())]) and the key import of
    [@solana/kit]. *)
Record Host : Type := {
  HOME : option string;
  readKeyFile : string -> result (list N);
  createKeyPairSignerFromBytes : list N -> result KeyPairSigner
}.

(** [loadKeypair] of scripts/swig-client.ts. *)
Definition loadKeypair (host : Host) (path : string) : result KeyPairSigner :=
  bind (readKeyFile host path) (fun bytes =>
  createKeyPairSignerFromBytes host bytes).

(** [path.replace("~", process.env.HOME || "")], as both scripts write it. *)
Definition expandHome (host : Host) (path : string) : string :=
  replace path "~" (or_else (HOME host) "").

(** Whether a string option of [parseArgs] is truthy: present and not
    empty. *)
Definition given (o : option string) : bool :=
  match o with
  | Some (String _ _) => true
  | _ => false
  end.

(** The value of an option that is [given]. *)
Definition text (o : option string) : string := or_else o "".

(** The [values] that [parseArgs] hands to [main] in add-agent.ts. [payer]
    has a default and is always there. *)
Record AddAgentValues : Type := {
  av_wallet : option string;
  av_role : option string;
  av_authority : option string;
  av_permissions : option string;
  av_acting_role : option string;
  av_signer : option string;
  av_payer : string;
  av_help : bool
}.

(** The [values] of create-treasury.ts. *)
Record CreateTreasuryValues : Type := {
  cv_root : option string;
  cv_id : option string;
  cv_payer : string;
  cv_help : bool
}.

(** What a script writes to the console, message by message. The data a
    message shows is kept, its wording is not. *)
Inductive Message : Type :=
| usage
| adding (wallet role authority permissions : string) (actingRole : option string)
| added (signature : Signature)
| creating (root id : string) (payer : Address)
| created (signature : Signature) (configAddress walletAddress : Address)
| failed (e : exn).

(** How a script ends: [main] returns, [process.exit(code)] is called, or
    an exception reaches the top level with nobody to catch it: an import
    of the script throws, or the promise of [main] rejects. *)
Inductive Ending : Type :=
| Completed
| Exited (code : Z)
| Unhandled (e : exn).

Record Run (kit : Kit) : Type := {
  ending : Ending;
  console : list Message;
  cluster : World kit
}.
Arguments ending {kit} _.
Arguments console {kit} _.
Arguments cluster {kit} _.

(** The model keeps role ids as integers: a [number] that is an integer is
    that integer, any other is carried as 0. No method reads a role id. *)
Definition integer_of (x : number) : Z :=
  match BigInt x with
  | Return z => z
  | Throw _ => 0
  end.

(** [values.permissions.split(",").map(p => parsePermission(p.trim()))]. *)
Definition parsePermissionList (kit : Kit) (permissions : string) : result (list Action) :=
  map_throwing (fun p => parsePermission kit (trim p)) (split "," permissions).

(** [main] of add-agent.ts, from the result of [parseArgs] on: the body of
    the function, which runs once the imports of the script have gone
    through ([add_agent] below is the script). *)
Definition add_agent_main (host : Host) (kit : Kit) (values : AddAgentValues)
           (w : World kit) : Run kit :=
  if av_help values
     || negb (given (av_wallet values)) || negb (given (av_role values))
     || negb (given (av_authority values)) || negb (given (av_permissions values))
  then {| ending := Exited (if av_help values then 0 else 1);
          console := [usage]; cluster := w |}
  else
    match loadKeypair host (expandHome host (av_payer values)) with
    | Throw e => {| ending := Unhandled e; console := []; cluster := w |}
    | Return payer =>
        match (if given (av_signer values)
               then bind (loadKeypair host (expandHome host (text (av_signer values))))
                         (fun s => Return (Some s))
               else Return None) with
        | Throw e => {| ending := Unhandled e; console := []; cluster := w |}
        | Return actingSigner =>
            match parsePermissionList kit (text (av_permissions values)) with
            | Throw e => {| ending := Unhandled e; console := []; cluster := w |}
            | Return permissions =>
                let banner :=
                  adding (text (av_wallet values)) (text (av_role values))
                         (text (av_authority values)) (text (av_permissions values))
                         (if given (av_acting_role values)
                          then av_acting_role values else None) in
                let attempt : async kit SignatureResult :=
                  await kit (sync kit (address kit (text (av_wallet values))))
                        (fun walletAddress =>
                  await kit (sync kit (address kit (text (av_authority values))))
                        (fun authority =>
                  addAuthority kit
                    {| aa_walletAddress := walletAddress;
                       aa_roleId := integer_of (parseInt (text (av_role values)));
                       aa_actingRoleId :=
                         if given (av_acting_role values)
                         then Some (integer_of (parseInt (text (av_acting_role values))))
                         else None;
                       aa_authority := authority;
                       aa_authorityType := "ed25519";
                       aa_actions := permissions;
                       aa_payer := payer;
                       aa_actingSigner := actingSigner |})) in
                match attempt w with
                | (Return result, w') =>
                    {| ending := Completed;
                       console := [banner; added (signature result)];
                       cluster := w' |}
                | (Throw e, w') =>
                    {| ending := Exited 1;
                       console := [banner; failed e];
                       cluster := w' |}
                end
            end
        end
    end.

(** [main] of create-treasury.ts, from the result of [parseArgs] on: the
    body of the function, which runs once the imports of the script have
    gone through ([create_treasury] below is the script). *)
Definition create_treasury_main (host : Host) (kit : Kit)
           (values : CreateTreasuryValues) (w : World kit) : Run kit :=
  if cv_help values || negb (given (cv_root values)) || negb (given (cv_id values))
  then {| ending := Exited (if cv_help values then 0 else 1);
          console := [usage]; cluster := w |}
  else
    match loadKeypair host (expandHome host (cv_payer values)) with
    | Throw e => {| ending := Unhandled e; console := []; cluster := w |}
    | Return payer =>
        let banner :=
          creating (text (cv_root values)) (text (cv_id values)) (signer_address payer) in
        let attempt : async kit CreateWalletResult :=
          await kit (sync kit (address kit (text (cv_root values))))
                (fun rootAuthority =>
          createWallet kit {| cw_rootAuthority := rootAuthority;
                              cw_id := text (cv_id values);
                              cw_payer := payer |}) in
        match attempt w with
        | (Return result, w') =>
            {| ending := Completed;
               console := [banner;
                           created (cw_signature result) (cw_configAddress result)
                                   (cw_walletAddress result)];
               cluster := w' |}
        | (Throw e, w') =>
            {| ending := Exited 1; console := [banner; failed e]; cluster := w' |}
        end
    end.

(** A transaction went through: the blockhash was fetched, the message of
    version 0 with this fee payer and these instructions was signed, the
    transaction was confirmed, and [sig] is its signature. *)
Definition confirmed (kit : Kit) (w w' : World kit) (feePayer : Address)
           (instructions : list IInstruction) (sig : Signature) : Prop :=
  exists latestBlockhash signedTx,
    getLatestBlockhash kit w = Return latestBlockhash
    /\ signTransactionMessageWithSigners kit
         {| tm_version := 0; tm_feePayer := feePayer;
            tm_lifetime := latestBlockhash; tm_instructions := instructions |}
       = Return signedTx
    /\ sendAndConfirm kit w signedTx = (Return tt, w')
    /\ sig = getSignatureFromTransaction kit signedTx.

Definition ascii_unit (c : ascii) : Prop := (N_of_ascii c < 128)%N.

(** A host for the examples: [HOME] is set, the default key file holds the
    64 bytes of a key pair, any other file holds an empty array, and a key
    pair is imported from 64 bytes only. *)
Definition laptop : Host :=
  {| HOME := Some "/home/agent";
     readKeyFile := fun path =>
       if String.eqb path "/home/agent/.config/solana/id.json"
       then Return (repeat 7%N 64) else Return [];
     createKeyPairSignerFromBytes := fun bytes =>
       if (List.length bytes =? 64)%nat then Return payer_key
       else Throw SolanaError |}.

(** The same host with [HOME] unset. *)
Definition homeless : Host :=
  {| HOME := None;
     readKeyFile := readKeyFile laptop;
     createKeyPairSignerFromBytes := createKeyPairSignerFromBytes laptop |}.

(** The first example of the help text of add-agent.ts, with addresses
    written out. *)
Definition add_manager : AddAgentValues :=
  {| av_wallet := Some treasury_address;
     av_role := Some "1";
     av_authority := Some (signer_address manager_key);
     av_permissions := Some "ManageAuthority,SolRecurringLimit:10:86400,ProgramAll";
     av_acting_role := None;
     av_signer := None;
     av_payer := "~/.config/solana/id.json";
     av_help := false |}.

(** The example of the help text of create-treasury.ts. *)
Definition create_my_treasury : CreateTreasuryValues :=
  {| cv_root := Some (signer_address payer_key);
     cv_id := Some "my-agent-treasury";
     cv_payer := "~/.config/solana/id.json";
     cv_help := false |}.

(** A run of add-agent.ts: the import of [./swig-client] (line 11), then
    [main()] (line 112). *)
Definition add_agent (host : Host) (kit : Kit) (values : AddAgentValues)
           (w : World kit) : Run kit :=
  match load_swig_client kit with
  | Throw e => {| ending := Unhandled e; console := []; cluster := w |}
  | Return _ => add_agent_main host kit values w
  end.

(** A run of create-treasury.ts: the import of [./swig-client] (line 11),
    then [main()] (line 78). *)
Definition create_treasury (host : Host) (kit : Kit) (values : CreateTreasuryValues)
           (w : World kit) : Run kit :=
  match load_swig_client kit with
  | Throw e => {| ending := Unhandled e; console := []; cluster := w |}
  | Return _ => create_treasury_main host kit values w
  end.

(** A library that signs no message of the client. The messages of the
    client have no signer attached (see [attached_signers]), and the library
    throws when the signature of the fee payer is missing. *)
Definition refuses_unsigned (kit : Kit) : Prop :=
  forall m, exists e, signTransactionMessageWithSigners kit m = Throw e.

(** The end of every submitting method: [sendTransaction] on one
    instruction, whose signature is wrapped into the result and whose
    rejection is passed on. *)
Definition handed_over {A : Type} (kit : Kit) (wrap : Signature -> A)
           (ix : IInstruction) (payer : KeyPairSigner) (w : World kit)
  : result A * World kit :=
  match sendTransaction kit [ix] payer None w with
  | (Return sig, w') => (Return (wrap sig), w')
  | (Throw e, w') => (Throw e, w')
  end.

(** Whether a text begins, after white space, the way a number can: with a
    sign, a digit, a point or the I of [Infinity]. *)
Definition starts_numeric (t : string) : bool :=
  match trimStart t with
  | String c _ =>
      match digit c with
      | Some _ => true
      | None => Ascii.eqb c "+" || Ascii.eqb c "-" || Ascii.eqb c "." || Ascii.eqb c "I"
      end
  | EmptyString => false
  end.

(** The same request with the identifier of forty characters. *)
Definition create_long_treasury : CreateTreasuryValues :=
  {| cv_root := cv_root create_my_treasury;
     cv_id := Some long_id;
     cv_payer := cv_payer create_my_treasury;
     cv_help := cv_help create_my_treasury |}.

(** ** Whole numbers in binary64 *)

(** [m * 2 ^ n]. *)
Fixpoint shifted (n : nat) (m : positive) : positive :=
  match n with
  | O => m
  | S n' => xO (shifted n' m)
  end.

(** The binary64 number that is the integer [q], or [- q], for [q] below
    [2 ^ 53]: the mantissa is brought to 53 bits. *)
Definition integral (neg : bool) (q : positive) : number :=
  let k := (53 - Pos.to_nat (digits2_pos q))%nat in
  S754_finite neg (shifted k q) (- Z.of_nat k).

(** The number a string of decimal digits writes, continuing from [acc];
    nothing when a character is not a digit. *)
Fixpoint decimal (s : string) (acc : N) : option N :=
  match s with
  | EmptyString => Some acc
  | String c s' =>
      match digit c with
      | Some d => decimal s' (10 * acc + d)%N
      | None => None
      end
  end.

(** Role 1 asks the wallet to sign: first nothing, then an instruction of
    another program, under another role id. *)
Definition sign_nothing : SignTransactionParams :=
  {| st_walletAddress := treasury_address;
     st_walletWalletAddress := treasury_wallet;
     st_roleId := 1;
     st_signer := manager_key;
     st_instructions := [];
     st_payer := payer_key |}.

Definition sign_transfer : SignTransactionParams :=
  {| st_walletAddress := treasury_address;
     st_walletWalletAddress := treasury_wallet;
     st_roleId := 100;
     st_signer := manager_key;
     st_instructions :=
       [ {| programAddress := "11111111111111111111111111111111";
            accounts := [ {| meta_address := treasury_wallet; meta_role := writable_signer |};
                          {| meta_address := signer_address payer_key;
                             meta_role := writable |} ];
            data := [2; 0; 0; 0; 0; 202; 154; 59; 0; 0; 0; 0]%N |} ];
     st_payer := payer_key |}.

(** * Properties *)

(** ** The runtime model on sample values *)

Example split_fields :
  split ":" "SolRecurringLimit:0.1:86400" = ["SolRecurringLimit"; "0.1"; "86400"]
  /\ split ":" "Program" = ["Program"]
  /\ split ":" "SolLimit:" = ["SolLimit"; ""].
Proof. repeat split. Qed.

Example lamports_samples :
  lamports (Some "0.1") = Return 100000000
  /\ lamports (Some "1.5e1") = Return 15000000000
  /\ lamports (Some "-0.5") = Return (-500000000)
  /\ lamports (Some "-1e-10") = Return (-1)
  /\ lamports (Some " 2 SOL") = Return 2000000000
  /\ lamports (Some "ten") = Throw RangeError
  /\ lamports (Some "Infinity") = Throw RangeError
  /\ lamports None = Return 0.
Proof. repeat split. Qed.

Example parseInt_samples :
  parseInt "86400" = of_Z 86400
  /\ parseInt "0x10" = of_Z 16
  /\ parseInt " -12abc" = of_Z (-12)
  /\ parseInt "9007199254740993" = of_Z 9007199254740992
  /\ parseInt "day" = NaN.
Proof. repeat split. Qed.

Example system_program_is_an_address :
  Base58.isAddress SYSTEM_PROGRAM = true
  /\ Base58.isAddress "my-treasury" = false
  /\ Base58.isAddress "0OIl0OIl0OIl0OIl0OIl0OIl0OIl0OIl0OIl" = false.
Proof. repeat split. Qed.

(** ** parsePermission *)

Lemma one_of_In (s : string) (l : list string) : one_of s l = true <-> In s l.
Proof.
  unfold one_of. rewrite existsb_exists. split.
  - intros (x & Hx & Heq). apply String.eqb_eq in Heq. now subst.
  - intros H. exists s. split; [assumption | apply String.eqb_refl].
Qed.

Lemma one_of_incl (s : string) (l l' : list string) :
  incl l l' -> one_of s l' = false -> one_of s l = false.
Proof.
  intros Hincl Hl'. destruct (one_of s l) eqn:E; [|reflexivity].
  apply one_of_In in E. apply Hincl in E. apply one_of_In in E. congruence.
Qed.

Lemma or_else_omitted (field : option string) (d : string) :
  omitted field -> or_else field d = d.
Proof. intros [-> | ->]; reflexivity. Qed.

Lemma lamports_omitted (field : option string) :
  omitted field -> lamports field = Return 0.
Proof. intros H. unfold lamports. rewrite (or_else_omitted _ _ H). reflexivity. Qed.

Lemma parseInt_default_window : parseInt "86400" = of_Z 86400.
Proof. reflexivity. Qed.

Ltac incl_closed :=
  let x := fresh in let H := fresh in
  intros x H; cbn in H |- *; intuition (subst; auto 30).

Ltac not_one_of_by H :=
  match goal with
  | |- context [one_of ?k ?l] =>
      replace (one_of k l) with false
        by (symmetry; apply (one_of_incl k l ActionType); [incl_closed | exact H])
  end.

(** C5, as the code has it: a kind field outside the closed set is not
    rejected. [parsePermission] returns an action whose [type] is the kind
    field as written and which carries no parameter. *)
Theorem parsePermission_unknown_kind (kit : Kit) (permission : string) :
  isActionType (kind_of permission) = false ->
  parsePermission kit permission = Return (bare (kind_of permission)).
Proof.
  intros H. unfold parsePermission. fold (kind_of permission).
  repeat not_one_of_by H. reflexivity.
Qed.

Lemma parsePermission_unknown_kind_witness :
  isActionType (kind_of "Bogus:1:2") = false
  /\ parsePermission confirming "Bogus:1:2" = Return (bare "Bogus").
Proof.
  split; [reflexivity |].
  apply (parsePermission_unknown_kind confirming "Bogus:1:2"). reflexivity.
Defined.

(** Counterexample to C5 as stated: the kind field of "Bogus:1:2" is outside the closed
    set, and the string still parses to an action. *)
Lemma parsePermission_accepts_unknown_kind :
  ~ (forall permission a,
        parsePermission confirming permission = Return a ->
        isActionType (kind_of permission) = true).
Proof.
  intros H. specialize (H "Bogus:1:2" (bare "Bogus") eq_refl). discriminate H.
Qed.

Lemma bind_Return {A B} (r : result A) (k : A -> result B) (b : B) :
  bind r k = Return b <-> exists a, r = Return a /\ k a = Return b.
Proof.
  destruct r as [a | e]; cbn; split.
  - intros H. now exists a.
  - now intros (a' & [= ->] & H).
  - discriminate.
  - now intros (a' & [=] & _).
Qed.

Ltac kind_cases H :=
  apply one_of_In in H; cbn in H;
  repeat match type of H with
         | _ \/ _ => destruct H as [H | H]
         | False => destruct H
         end.

(** C6: what the code does at the failing inputs. The kinds
    [SolRecurringDestinationLimit], [TokenRecurringDestinationLimit] and
    [ProgramScope] are members of [ActionType] and are documented with a
    destination, an amount and a window, or with a program id; the switch
    has no case for them, so they fall to [default: return { type }] and
    everything written after the kind is dropped. Their siblings
    [SolDestinationLimit], [SolRecurringLimit] and [Program] have a case and
    carry what is written. *)
Theorem parsePermission_drops_parameters :
  isActionType "SolRecurringDestinationLimit" = true
  /\ isActionType "TokenRecurringDestinationLimit" = true
  /\ isActionType "ProgramScope" = true
  /\ parsePermission confirming
       "SolRecurringDestinationLimit:11111111111111111111111111111111:1:86400"
     = Return (bare "SolRecurringDestinationLimit")
  /\ parsePermission confirming
       "TokenRecurringDestinationLimit:11111111111111111111111111111111:1:86400"
     = Return (bare "TokenRecurringDestinationLimit")
  /\ parsePermission confirming "ProgramScope:11111111111111111111111111111111:5"
     = Return (bare "ProgramScope")
  /\ parsePermission confirming "SolDestinationLimit:11111111111111111111111111111111:1"
     = Return {| type := "SolDestinationLimit"; amount := Some 1000000000;
                 window := None; programId := None;
                 destination := Some "11111111111111111111111111111111" |}
  /\ parsePermission confirming "SolRecurringLimit:1:86400"
     = Return {| type := "SolRecurringLimit"; amount := Some 1000000000;
                 window := Some (of_Z 86400); programId := None; destination := None |}
  /\ parsePermission confirming "Program:11111111111111111111111111111111"
     = Return {| type := "Program"; amount := None; window := None;
                 programId := Some "11111111111111111111111111111111";
                 destination := None |}.
Proof. repeat split; reflexivity. Qed.

(** C10: a missing field never makes [parsePermission] fail, and the case
    that reads it uses the default in its place: amount 0, window 86400,
    destination and program id the address of thirty-two ones. Stated for
    each case of the switch, field by field; the fields that are present are
    parsed as usual. A kind without a case reads no field and is returned as
    it is. The address library must accept the default address, as it
    does. *)
Theorem parsePermission_missing_fields (kit : Kit) (permission : string) :
  isAddress kit SYSTEM_PROGRAM = true ->
  let parts := split ":" permission in
  let kind := kind_of permission in
  let field i := nth_error parts i in
  let action a w p d :=
    {| type := kind; amount := a; window := w; programId := p; destination := d |} in
  (one_of kind one_time_kinds = true ->
   omitted (field 1%nat) ->
   parsePermission kit permission = Return (action (Some 0) None None None))
  /\ (one_of kind recurring_kinds = true ->
      (omitted (field 1%nat) ->
       parsePermission kit permission
       = Return (action (Some 0)
                        (Some (parseInt (or_else (field 2%nat) "86400"))) None None))
      /\ (omitted (field 2%nat) ->
          parsePermission kit permission
          = bind (lamports (field 1%nat))
                 (fun v => Return (action (Some v) (Some (of_Z 86400)) None None)))
      /\ (omitted (field 1%nat) -> omitted (field 2%nat) ->
          parsePermission kit permission
          = Return (action (Some 0) (Some (of_Z 86400)) None None)))
  /\ (one_of kind destination_kinds = true ->
      (omitted (field 1%nat) ->
       parsePermission kit permission
       = bind (lamports (field 2%nat))
              (fun v => Return (action (Some v) None None (Some SYSTEM_PROGRAM))))
      /\ (omitted (field 2%nat) ->
          parsePermission kit permission
          = bind (address kit (or_else (field 1%nat) SYSTEM_PROGRAM))
                 (fun d => Return (action (Some 0) None None (Some d))))
      /\ (omitted (field 1%nat) -> omitted (field 2%nat) ->
          parsePermission kit permission
          = Return (action (Some 0) None None (Some SYSTEM_PROGRAM))))
  /\ (one_of kind program_kinds = true ->
      omitted (field 1%nat) ->
      parsePermission kit permission
      = Return (action None None (Some SYSTEM_PROGRAM) None))
  /\ (one_of kind (one_time_kinds ++ recurring_kinds
                   ++ destination_kinds ++ program_kinds) = false ->
      parsePermission kit permission = Return (bare kind)).
Proof.
  intros Hsys parts kind field action. unfold parsePermission.
  change (nth 0 (split ":" permission) "") with kind.
  change (split ":" permission) with parts.
  change (nth_error parts) with field.
  assert (Haddr : address kit SYSTEM_PROGRAM = Return SYSTEM_PROGRAM)
    by (unfold address; now rewrite Hsys).
  subst action. clearbody kind. clearbody field.
  split; [| split; [| split; [| split]]];
    [ | | | | intros Hk; unfold one_of in Hk |- *;
              rewrite !existsb_app, !orb_false_iff in Hk;
              destruct Hk as (-> & -> & -> & ->); reflexivity ];
    intros Hk; kind_cases Hk; rewrite <- Hk;
    repeat match goal with
           | |- context [one_of ?k ?l] =>
               let b := eval vm_compute in (one_of k l) in
               change (one_of k l) with b
           end; cbv iota;
    repeat split; intros;
    repeat match goal with
           | H : omitted _ |- _ =>
               rewrite ?(lamports_omitted _ H), ?(or_else_omitted _ _ H); clear H
           end;
    rewrite ?Haddr, ?parseInt_default_window; reflexivity.
Qed.

Lemma parsePermission_missing_fields_witness :
  isAddress confirming SYSTEM_PROGRAM = true
  /\ parsePermission confirming "SolRecurringLimit"
     = Return {| type := "SolRecurringLimit"; amount := Some 0;
                 window := Some (of_Z 86400);
                 programId := None; destination := None |}
  /\ parsePermission confirming "SolDestinationLimit::"
     = Return {| type := "SolDestinationLimit"; amount := Some 0;
                 window := None; programId := None;
                 destination := Some SYSTEM_PROGRAM |}.
Proof.
  pose proof (parsePermission_missing_fields confirming "SolRecurringLimit" eq_refl)
    as (_ & Hrec & _).
  pose proof (parsePermission_missing_fields confirming "SolDestinationLimit::" eq_refl)
    as (_ & _ & Hdst & _ & _).
  split; [reflexivity |]. split.
  - apply Hrec; [reflexivity | left; reflexivity | left; reflexivity].
  - apply Hdst; [reflexivity | right; reflexivity | right; reflexivity].
Defined.

(** ** createWallet: the encoded identifier *)

Lemma chars_length (s : string) :
  List.length (list_ascii_of_string s) = String.length s.
Proof. induction s; cbn; congruence. Qed.

Lemma chars_append (s t : string) :
  list_ascii_of_string (String.append s t)
  = (list_ascii_of_string s ++ list_ascii_of_string t)%list.
Proof. induction s as [| c s IH]; simpl; [reflexivity | now rewrite IH]. Qed.

Lemma chars_repeat_char (c : ascii) (n : nat) :
  list_ascii_of_string (repeat_char c n) = repeat c n.
Proof. induction n; cbn; congruence. Qed.

Lemma chars_slice0 (s : string) (n : nat) :
  list_ascii_of_string (slice0 s n) = firstn n (list_ascii_of_string s).
Proof.
  unfold slice0. revert n. induction s as [| c s IH]; intros [| n]; cbn; try reflexivity.
  now rewrite IH.
Qed.

(** The text that is encoded has exactly 32 code units. *)
Lemma padded_slice_chars (id : string) :
  list_ascii_of_string (slice0 (padEnd id 32 "000"%char) 32)
  = (firstn 32 (list_ascii_of_string id)
     ++ repeat "000"%char (32 - String.length id))%list.
Proof.
  rewrite chars_slice0. unfold padEnd.
  rewrite chars_append, chars_repeat_char, firstn_app, chars_length.
  f_equal. rewrite firstn_all2; [reflexivity |].
  rewrite repeat_length. lia.
Qed.

Lemma utf8_length_ge (s : string) : (String.length s <= List.length (utf8 s))%nat.
Proof.
  induction s as [| c s IH]; cbn; [lia |].
  destruct (N_of_ascii c <? 128)%N; cbn; lia.
Qed.

(** UTF-8 is one byte per code unit exactly on ASCII text. *)
Lemma utf8_ascii (s : string) :
  (List.length (utf8 s) <= String.length s)%nat <->
  Forall (fun c => (N_of_ascii c < 128)%N) (list_ascii_of_string s).
Proof.
  induction s as [| c s IH]; cbn.
  - split; [constructor | lia].
  - pose proof (utf8_length_ge s) as Hge.
    destruct (N_of_ascii c <? 128)%N eqn:E; cbn.
    + apply N.ltb_lt in E. rewrite Forall_cons_iff. split.
      * intros H. split; [assumption | apply IH; lia].
      * intros [_ H]. apply IH in H. lia.
    + apply N.ltb_ge in E. rewrite Forall_cons_iff. split; [lia | intros [H _]; lia].
Qed.

Lemma utf8_of_ascii (s : string) :
  Forall (fun c => (N_of_ascii c < 128)%N) (list_ascii_of_string s) ->
  utf8 s = map N_of_ascii (list_ascii_of_string s).
Proof.
  induction s as [| c s IH]; cbn; [reflexivity |].
  rewrite Forall_cons_iff. intros [Hc Hs].
  apply N.ltb_lt in Hc. rewrite Hc. now rewrite IH.
Qed.

(** What [encodeId] accepts and what it produces: the identifier is taken
    when its first 32 code units are ASCII, and the array holds these code
    units followed by NUL bytes up to 32. *)
Lemma encodeId_Return (id : string) (idArray : list N) :
  encodeId id = Return idArray <->
  Forall (fun c => (N_of_ascii c < 128)%N) (firstn 32 (list_ascii_of_string id))
  /\ idArray = (map N_of_ascii (firstn 32 (list_ascii_of_string id))
                ++ repeat 0%N (32 - String.length id))%list.
Proof.
  unfold encodeId, uint8array_set.
  set (s := slice0 (padEnd id 32 "000"%char) 32).
  pose proof (padded_slice_chars id) as Hs. fold s in Hs.
  assert (Hlen : String.length s = 32%nat).
  { rewrite <- chars_length, Hs, length_app, length_firstn, repeat_length, chars_length.
    lia. }
  assert (Hfill : Forall (fun c => (N_of_ascii c < 128)%N)
                         (repeat "000"%char (32 - String.length id))).
  { apply List.Forall_forall. intros c Hc. apply repeat_spec in Hc. now subst. }
  pose proof (utf8_ascii s) as Hascii. rewrite Hlen, Hs in Hascii.
  pose proof (utf8_length_ge s) as Hge. rewrite Hlen in Hge.
  destruct (List.length (utf8 s) <=? 32)%nat eqn:E.
  - apply Nat.leb_le in E.
    assert (Hall : Forall (fun c => (N_of_ascii c < 128)%N) (list_ascii_of_string s))
      by (rewrite Hs; now apply Hascii).
    assert (Hfirst : Forall (fun c => (N_of_ascii c < 128)%N)
                            (firstn 32 (list_ascii_of_string id))).
    { rewrite Hs in Hall. now apply Forall_app in Hall. }
    assert (Hbytes : (utf8 s ++ repeat 0%N (32 - List.length (utf8 s)))%list
                     = (map N_of_ascii (firstn 32 (list_ascii_of_string id))
                        ++ repeat 0%N (32 - String.length id))%list).
    { replace (32 - List.length (utf8 s))%nat with O by lia.
      rewrite (utf8_of_ascii s Hall), Hs, map_app, map_repeat. cbn [repeat].
      now rewrite app_nil_r. }
    rewrite Hbytes. split.
    + intros [= <-]. now split.
    + intros [_ ->]. reflexivity.
  - apply Nat.leb_gt in E. split; [discriminate |].
    intros [Hfirst _]. exfalso.
    assert (List.length (utf8 s) <= 32)%nat; [| lia].
    apply Hascii. apply Forall_app. now split.
Qed.

Lemma slice0_length (s : string) (n : nat) :
  String.length (slice0 s n) = Nat.min n (String.length s).
Proof. rewrite <- !chars_length, chars_slice0, length_firstn. reflexivity. Qed.

Lemma chars_inj (s t : string) :
  list_ascii_of_string s = list_ascii_of_string t -> s = t.
Proof.
  intros H. rewrite <- (string_of_list_ascii_of_string s),
    <- (string_of_list_ascii_of_string t). now rewrite H.
Qed.

(** The encoding looks at the first 32 characters only. *)
Lemma encodeId_slice (id : string) : encodeId (slice0 id 32) = encodeId id.
Proof.
  unfold encodeId. f_equal. f_equal. apply chars_inj.
  rewrite !padded_slice_chars, chars_slice0, slice0_length, firstn_firstn.
  f_equal. f_equal. lia.
Qed.

(** C7, as the code has it: [createWallet] begins by encoding the
    identifier ([encodeId], its first three statements). Whenever the
    encoding goes through, the encoded identifier is exactly 32 bytes: the
    bytes of the identifier's first 32 characters, all of them ASCII,
    followed by NUL bytes up to 32. An identifier of at most 32 characters
    is kept whole on the left and padded on the right. A longer identifier
    is not refused: the encoding cuts it to its first 32 characters, and
    [createWallet] goes on exactly as it does for these 32 characters. *)
Theorem createWallet_identifier_encoding (id : string) (idArray : list N) :
  encodeId id = Return idArray ->
  let chars := list_ascii_of_string id in
  List.length idArray = 32%nat
  /\ idArray = (map N_of_ascii (firstn 32 chars)
                ++ repeat 0%N (32 - String.length id))%list
  /\ Forall (fun c => (N_of_ascii c < 128)%N) (firstn 32 chars)
  /\ ((String.length id <= 32)%nat ->
      idArray = (map N_of_ascii chars ++ repeat 0%N (32 - String.length id))%list)
  /\ ((32 < String.length id)%nat -> idArray = map N_of_ascii (firstn 32 chars))
  /\ (forall (kit : Kit) (root : Address) (payer : KeyPairSigner) (w : World kit),
         createWallet kit {| cw_rootAuthority := root; cw_id := id; cw_payer := payer |} w
         = createWallet kit {| cw_rootAuthority := root; cw_id := slice0 id 32;
                               cw_payer := payer |} w).
Proof.
  intros E chars. apply encodeId_Return in E as [Hascii ->].
  split; [| split; [| split; [| split; [| split]]]].
  - rewrite length_app, length_map, length_firstn, repeat_length.
    unfold chars. rewrite chars_length. lia.
  - reflexivity.
  - exact Hascii.
  - intros Hshort. rewrite firstn_all2; [reflexivity |].
    unfold chars. rewrite chars_length. exact Hshort.
  - intros Hlong. replace (32 - String.length id)%nat with O by lia.
    cbn [repeat]. now rewrite app_nil_r.
  - intros kit root payer w. unfold createWallet, await, sync. cbn [cw_id cw_payer].
    now rewrite encodeId_slice.
Qed.

Lemma createWallet_identifier_encoding_witness :
  encodeId "my-treasury"
  = Return ([109; 121; 45; 116; 114; 101; 97; 115; 117; 114; 121] ++ repeat 0 21)%N%list
  /\ List.length ([109; 121; 45; 116; 114; 101; 97; 115; 117; 114; 121]
                  ++ repeat 0 21)%N%list = 32%nat.
Proof.
  split; [reflexivity |].
  apply (createWallet_identifier_encoding "my-treasury" _ eq_refl).
Defined.

(** Counterexample to C7 as stated: an identifier of forty characters is
    not refused. Its encoding is that of its first 32 characters, with no
    padding, and [createWallet] ends for it exactly as it ends for an
    identifier of eleven characters: at the signing of the message it has
    built, and not at the identifier. An identifier [createWallet] does
    refuse, one with a character outside ASCII, ends with a [RangeError]
    before any message is built. *)
Lemma createWallet_cuts_long_identifier :
  String.length (cw_id create_long) = 40%nat
  /\ encodeId (cw_id create_long) = Return (utf8 "agent-org-treasury-for-the-defi-")
  /\ encodeId (cw_id create_long) = encodeId "agent-org-treasury-for-the-defi-"
  /\ createWallet confirming create_long empty_cluster
     = createWallet confirming create_short empty_cluster
  /\ createWallet confirming create_long empty_cluster = (Throw SolanaError, empty_cluster)
  /\ createWallet confirming
       {| cw_rootAuthority := signer_address payer_key;
          cw_id := String (ascii_of_N 233) "tude";
          cw_payer := payer_key |} empty_cluster
     = (Throw RangeError, empty_cluster).
Proof. repeat split; reflexivity. Qed.

(** ** getWalletInfo *)

(** C9: for an address with no account [getWalletInfo] resolves to
    [{exists: false, roles: 0, lamports: 0}]; for an account that exists it
    resolves to [roles: 0] whatever the account holds, with the lamports of
    the account. The cluster is left as it was. *)
Theorem getWalletInfo_result (kit : Kit) (configAddress : Address) (w : World kit) :
  (getAccountInfo kit w configAddress = Return None ->
   getWalletInfo kit configAddress w
   = (Return {| wi_exists := false; wi_roles := of_Z 0; wi_lamports := 0 |}, w))
  /\ (forall value,
         getAccountInfo kit w configAddress = Return (Some value) ->
         getWalletInfo kit configAddress w
         = (Return {| wi_exists := true; wi_roles := of_Z 0;
                      wi_lamports := account_lamports value |}, w)).
Proof.
  unfold getWalletInfo, await, resolve.
  split; [intros H | intros value H]; now rewrite H.
Qed.

Lemma getWalletInfo_result_witness :
  getWalletInfo confirming treasury_wallet funded_cluster
  = (Return {| wi_exists := false; wi_roles := S754_zero false; wi_lamports := 0 |},
     funded_cluster)
  /\ getWalletInfo confirming treasury_address funded_cluster
     = (Return {| wi_exists := true; wi_roles := S754_zero false;
                  wi_lamports := 99890880 |},
        funded_cluster).
Proof.
  split.
  - apply (proj1 (getWalletInfo_result confirming treasury_wallet funded_cluster)).
    reflexivity.
  - apply (proj2 (getWalletInfo_result confirming treasury_address funded_cluster)
                 {| account_lamports := 99890880 |}).
    reflexivity.
Defined.

(** ** addAuthority and removeAuthority *)

(** X26. [addAuthority] reads neither the actions to grant nor the role
    ids, the authority or its type. Two requests on the
    same wallet with the same payer and acting signer build the same
    instruction and, from the same state of the cluster, end the same way,
    with the same result or the same error. *)
Theorem addAuthority_ignores_actions (kit : Kit) (p q : AddAuthorityParams)
        (w : World kit) :
  aa_walletAddress p = aa_walletAddress q ->
  aa_payer p = aa_payer q ->
  aa_actingSigner p = aa_actingSigner q ->
  (forall system, addAuthorityIx p system = addAuthorityIx q system)
  /\ addAuthority kit p w = addAuthority kit q w.
Proof.
  destruct p as [wallet roleId acting authority authorityType actions payer signer].
  destruct q as [wallet' roleId' acting' authority' authorityType' actions' payer' signer'].
  cbn [aa_walletAddress aa_payer aa_actingSigner].
  intros <- <- <-. split.
  - intros system. reflexivity.
  - reflexivity.
Qed.

Lemma addAuthority_ignores_actions_witness :
  addAuthority confirming escalating_grant empty_cluster
  = addAuthority confirming modest_grant empty_cluster.
Proof.
  apply (addAuthority_ignores_actions confirming escalating_grant modest_grant
                                      empty_cluster);
    reflexivity.
Defined.

(** X27. [removeAuthority] reads neither the role to remove nor the acting
    role. The removal of role 0, by any role, builds
    the same instruction as any other removal on the same wallet with the
    same payer and acting signer and, from the same state of the cluster,
    ends the same way, with the same signature or error and the same state
    of the cluster afterwards. *)
Theorem removeAuthority_ignores_role_ids (kit : Kit) (p q : RemoveAuthorityParams)
        (w : World kit) :
  ra_walletAddress p = ra_walletAddress q ->
  ra_payer p = ra_payer q ->
  ra_actingSigner p = ra_actingSigner q ->
  (forall system, removeAuthorityIx p system = removeAuthorityIx q system)
  /\ removeAuthority kit p w = removeAuthority kit q w.
Proof.
  destruct p as [wallet roleId acting payer signer].
  destruct q as [wallet' roleId' acting' payer' signer'].
  cbn [ra_walletAddress ra_payer ra_actingSigner].
  intros <- <- <-. split.
  - intros system. reflexivity.
  - reflexivity.
Qed.

Lemma removeAuthority_ignores_role_ids_witness :
  removeAuthority confirming (remove_role 0 1) empty_cluster
  = removeAuthority confirming (remove_role 100 1) empty_cluster.
Proof.
  apply (removeAuthority_ignores_role_ids confirming (remove_role 0 1)
                                          (remove_role 100 1) empty_cluster);
    reflexivity.
Defined.

(** X1. [signTransaction] likewise never reads the role id or the inner
    instructions: what it submits is fixed by the two wallet addresses, the
    signer and the payer. *)
Lemma signTransaction_ignores_instructions (kit : Kit) (p q : SignTransactionParams)
      (w : World kit) :
  st_walletAddress p = st_walletAddress q ->
  st_walletWalletAddress p = st_walletWalletAddress q ->
  st_signer p = st_signer q ->
  st_payer p = st_payer q ->
  signTransaction kit p w = signTransaction kit q w.
Proof.
  destruct p as [wallet walletWallet roleId signer instructions payer].
  destruct q as [wallet' walletWallet' roleId' signer' instructions' payer'].
  cbn [st_walletAddress st_walletWalletAddress st_signer st_payer].
  intros <- <- <- <-. reflexivity.
Qed.

(** ** The budget ledger *)

Module EngineFacts.
Import Engine.


Lemma consume_within (b : Budget) (e : BudgetEntry) (requested : option Id)
      (amount : N) (now : Timestamp) :
  (consumed e <= limit b)%N ->
  (consumed (snd (consume b e requested amount now)) <= limit b)%N.
Proof.
  intros He. unfold consume.
  destruct (negb (destination_ok b requested)); [exact He |].
  destruct (N.ltb_spec (limit b) (consumed (rollover b now e) + amount)); cbn;
    [exact He | lia].
Qed.

Lemma checkAndConsume_budget (L : Ledger) (roleId : RoleId) (a : Action) (b : Budget)
      (requested : option Id) (amount : N) (now : Timestamp) :
  budget a = Some b ->
  checkAndConsume L roleId a requested amount now
  = match consume b (default (fresh now) (L !! (roleId, a))) requested amount now with
    | (Ok, e') => (Ok, <[(roleId, a) := e']> L)
    | (Rejected r, _) => (Rejected r, L)
    end.
Proof. intros H. unfold checkAndConsume. now rewrite H. Qed.

(** C2: a call first locates (or creates) the entry and rolls its window
    over; with [consumed] the amount the entry then holds, a call whose
    destination matches is rejected with [LimitExceeded] when
    [consumed + amount > limit], and the ledger, hence the entry with its
    consumed amount and window start, is the one the call was given;
    otherwise the call returns [Ok] and the entry holds [consumed + amount].
    A call on a destination-scoped kind with another destination is rejected
    before the limit is looked at, and changes nothing either. The second
    part is the scenario on a recurring allowance of 100 per 86400: 60 at
    time 0 is accepted, 60 at time 100 is rejected and 60 stays consumed, 60
    at time 86401 is accepted in a new window. *)
Theorem checkAndConsume_limit :
  (forall (L : Ledger) (roleId : RoleId) (a : Action) (b : Budget)
          (requested : option Id) (amount : N) (now : Timestamp),
      budget a = Some b ->
      let e := rollover b now (default (fresh now) (L !! (roleId, a))) in
      (destination_ok b requested = true ->
       (limit b < consumed e + amount)%N ->
       checkAndConsume L roleId a requested amount now = (Rejected LimitExceeded, L))
      /\ (destination_ok b requested = true ->
          (consumed e + amount <= limit b)%N ->
          checkAndConsume L roleId a requested amount now
          = (Ok, <[(roleId, a) := {| consumed := consumed e + amount;
                                     window_start := window_start e |}]> L))
      /\ (destination_ok b requested = false ->
          checkAndConsume L roleId a requested amount now
          = (Rejected WrongDestination, L)))
  /\ checkAndConsume ∅ 1%N daily None 60 0 = (Ok, spent 60 0)
  /\ checkAndConsume (spent 60 0) 1%N daily None 60 100
     = (Rejected LimitExceeded, spent 60 0)
  /\ checkAndConsume (spent 60 0) 1%N daily None 60 86401 = (Ok, spent 60 86401).
Proof.
  split.
  - intros L roleId a b requested amount now Hb e.
    rewrite (checkAndConsume_budget _ _ _ _ _ _ _ Hb). unfold consume. fold e.
    split; [| split]; intros Hd; rewrite Hd; cbn [negb]; [intros H | intros H |].
    + apply N.ltb_lt in H. now rewrite H.
    + apply N.ltb_ge in H. now rewrite H.
    + reflexivity.
  - unfold spent.
    split; [| split]; rewrite (checkAndConsume_budget _ _ daily _ _ _ _ eq_refl).
    + rewrite lookup_empty. simpl. now rewrite insert_empty.
    + rewrite lookup_singleton_eq. reflexivity.
    + rewrite lookup_singleton_eq. simpl. now rewrite insert_singleton_eq.
Qed.

Lemma checkAndConsume_limit_witness :
  budget daily = Some {| limit := 100; windowLength := Some 86400%N; destination := None |}
  /\ checkAndConsume (spent 60 0) 1%N daily None 60 100
     = (Rejected LimitExceeded, spent 60 0).
Proof.
  split; [reflexivity |].
  refine (proj1 (proj1 checkAndConsume_limit (spent 60 0) 1%N daily _ None 60%N 100
                       eq_refl) eq_refl _).
  unfold spent. rewrite lookup_singleton_eq. reflexivity.
Defined.

Lemma consume_rejected (b : Budget) (e : BudgetEntry) (requested : option Id)
      (amount : N) (now : Timestamp) (r : Reason) :
  fst (consume b e requested amount now) = Rejected r ->
  snd (consume b e requested amount now) = e.
Proof.
  unfold consume.
  destruct (negb (destination_ok b requested)); [reflexivity |].
  destruct (limit b <? consumed (rollover b now e) + amount)%N; [reflexivity |].
  discriminate.
Qed.

(** One call on a stored entry, read on the entry alone. *)
Lemma call_stored (roleId : RoleId) (a : Action) (b : Budget) (L : Ledger)
      (e : BudgetEntry) (c : Call) :
  budget a = Some b ->
  L !! (roleId, a) = Some e ->
  fst (call roleId a L c)
  = fst (consume b e (call_destination c) (call_amount c) (call_now c))
  /\ snd (call roleId a L c) !! (roleId, a)
     = Some (snd (consume b e (call_destination c) (call_amount c) (call_now c))).
Proof.
  intros Hb He. unfold call. rewrite (checkAndConsume_budget _ _ _ _ _ _ _ Hb), He.
  simpl (default _ _).
  pose proof (consume_rejected b e (call_destination c) (call_amount c) (call_now c))
    as Hrej.
  destruct (consume b e (call_destination c) (call_amount c) (call_now c))
    as [[| r] e'] eqn:E; simpl in *.
  - split; [reflexivity | apply lookup_insert_eq].
  - split; [reflexivity |]. rewrite He. f_equal. symmetry. now apply (Hrej r).
Qed.

(** One call on a recurring entry, against the description in [step]. *)
Lemma consume_step (b : Budget) (w : N) (e : BudgetEntry) (c : Call) :
  windowLength b = Some w ->
  step b w e c
       (fst (consume b e (call_destination c) (call_amount c) (call_now c)))
       (snd (consume b e (call_destination c) (call_amount c) (call_now c))).
Proof.
  intros Hw. unfold step, consume, rollover, elapsed. rewrite Hw.
  replace (Z.of_N w <=? call_now c - window_start e)
    with (window_start e + Z.of_N w <=? call_now c)
    by (destruct (Z.leb_spec (window_start e + Z.of_N w) (call_now c));
        symmetry; [apply Z.leb_le | apply Z.leb_gt]; lia).
  destruct (destination_ok b (call_destination c)); cbn [negb].
  - destruct (window_start e + Z.of_N w <=? call_now c);
      cbn [consumed window_start];
      match goal with
      | |- context [(?x <? ?y)%N] => destruct (N.ltb_spec x y)
      end; cbn [fst snd];
      (split; [split; [intros H'; first [discriminate H' | split; [reflexivity | lia]]
                      | intros [_ H']; first [reflexivity | lia]]
              | split; [intros H'; first [discriminate H' | reflexivity]
                       | intros H'; first [reflexivity | now contradiction H']]]).
  - cbn [fst snd]. split; [split; [discriminate | intros [H' _]; discriminate H'] |].
    split; [discriminate | reflexivity].
Qed.

Lemma call_step (roleId : RoleId) (a : Action) (b : Budget) (w : N) (L : Ledger)
      (e : BudgetEntry) (c : Call) :
  budget a = Some b ->
  windowLength b = Some w ->
  L !! (roleId, a) = Some e ->
  exists e', snd (call roleId a L c) !! (roleId, a) = Some e'
             /\ step b w e c (fst (call roleId a L c)) e'
             /\ ((consumed e <= limit b)%N -> (consumed e' <= limit b)%N).
Proof.
  intros Hb Hw He.
  destruct (call_stored roleId a b L e c Hb He) as [Hfst Hsnd].
  exists (snd (consume b e (call_destination c) (call_amount c) (call_now c))).
  split; [exact Hsnd |]. split.
  - rewrite Hfst. now apply consume_step.
  - apply consume_within.
Qed.

(** A step moves the start of the window exactly when the call is accepted
    at or after the end of the window in force. *)
Lemma step_window (b : Budget) (w : N) (e e' : BudgetEntry) (c : Call) (o : Outcome) :
  step b w e c o e' ->
  window_start e <= call_now c ->
  (o = Ok /\ window_start e + Z.of_N w <= call_now c ->
   window_start e' = call_now c)
  /\ (~ (o = Ok /\ window_start e + Z.of_N w <= call_now c) ->
      window_start e' = window_start e)
  /\ window_start e' <= call_now c.
Proof.
  unfold step. intros (_ & Hok & Hrej) Hnow.
  destruct (Z.leb_spec (window_start e + Z.of_N w) (call_now c)) as [Hover | Hin].
  - destruct o as [| r].
    + rewrite (Hok eq_refl). cbn. repeat split; try lia. intros H. exfalso. apply H.
      now split.
    + rewrite (Hrej ltac:(discriminate)). repeat split; try lia.
      intros [[=] _].
  - destruct o as [| r].
    + rewrite (Hok eq_refl). cbn. repeat split; try lia.
    + rewrite (Hrej ltac:(discriminate)). repeat split; try lia.
Qed.

(** The observations of a sequence of calls on a stored recurring entry,
    for a clock that starts at [t] and never goes back. *)
Lemma trace_recurring (roleId : RoleId) (a : Action) (b : Budget) (w : N)
      (calls : list Call) :
  budget a = Some b ->
  windowLength b = Some w ->
  forall (L : Ledger) (e : BudgetEntry) (t : Timestamp),
    L !! (roleId, a) = Some e ->
    (consumed e <= limit b)%N ->
    window_start e <= t ->
    nondecreasing t calls ->
    Forall2 (fun c observed =>
               exists e', snd observed !! (roleId, a) = Some e'
                          /\ (consumed e' <= limit b)%N)
            calls (trace roleId a L calls)
    /\ steps roleId a b w e calls (trace roleId a L calls)
    /\ ((0 < w)%N ->
        reset_times roleId a L calls = crossing_times roleId a w L calls)
    /\ spaced w (window_start e) (reset_times roleId a L calls).
Proof.
  intros Hb Hw. induction calls as [| c cs IH]; intros L e t He Hwithin Ht Hclock.
  - cbn. repeat split; constructor.
  - destruct Hclock as [Htc Hcs].
    destruct (call_step roleId a b w L e c Hb Hw He) as (e' & He' & Hstep & Hkeep).
    assert (Hnow : window_start e <= call_now c) by lia.
    destruct (step_window b w e e' c _ Hstep Hnow) as (Hmoved & Hsame & Hbefore).
    destruct (IH (snd (call roleId a L c)) e' (call_now c) He' (Hkeep Hwithin)
                 Hbefore Hcs) as (Hall & Hsteps & Hresets & Hspaced).
    assert (Hobserved :
              window_of roleId a (snd (call roleId a L c)) = window_of roleId a L
              <-> window_start e' = window_start e).
    { unfold window_of. rewrite He', He. cbn. split; [now intros [= ->] | now intros ->]. }
    split; [| split; [| split]].
    + cbn [trace]. constructor; [| exact Hall].
      exists e'. split; [exact He' | exact (Hkeep Hwithin)].
    + cbn [trace steps].
      destruct (call roleId a L c) as [o L'] eqn:Ecall. cbn [fst snd] in *.
      exists e'. split; [exact He' | split; [exact Hstep | exact Hsteps]].
    + intros Hpos. cbn [reset_times crossing_times]. rewrite (Hresets Hpos). f_equal.
      unfold crosses. rewrite He.
      destruct (fst (call roleId a L c)) as [| r] eqn:Eo.
      * destruct (Z.leb_spec (window_start e + Z.of_N w) (call_now c)) as [Hover | Hin].
        -- rewrite bool_decide_eq_false_2; [reflexivity |].
           rewrite Hobserved, (Hmoved (conj eq_refl Hover)). lia.
        -- rewrite bool_decide_eq_true_2; [reflexivity |].
           apply Hobserved, Hsame. intros [_ H']. lia.
      * rewrite bool_decide_eq_true_2; [reflexivity |].
        apply Hobserved, Hsame. intros [[=] _].
    + cbn [reset_times].
      destruct (decide (window_of roleId a (snd (call roleId a L c))
                        = window_of roleId a L)) as [Heq | Hne].
      * rewrite (bool_decide_eq_true_2 _ Heq). cbn [app].
        apply Hobserved in Heq. now rewrite <- Heq.
      * rewrite (bool_decide_eq_false_2 _ Hne). cbn [app spaced].
        assert (Hcross : fst (call roleId a L c) = Ok
                         /\ window_start e + Z.of_N w <= call_now c).
        { destruct (fst (call roleId a L c)) as [| r] eqn:Eo.
          - destruct (Z.leb_spec (window_start e + Z.of_N w) (call_now c));
              [now split |].
            exfalso. apply Hne, Hobserved, Hsame. intros [_ H']. lia.
          - exfalso. apply Hne, Hobserved, Hsame. intros [[=] _]. }
        split; [apply Hcross |]. now rewrite <- (Hmoved Hcross).
Qed.

Lemma rollover_idempotent (b : Budget) (now : Timestamp) (e : BudgetEntry) :
  rollover b now (rollover b now e) = rollover b now e.
Proof.
  unfold rollover. destruct (elapsed b e now) eqn:E.
  - clear E. destruct (elapsed b _ now); reflexivity.
  - now rewrite E.
Qed.

(** C3: along every sequence of calls on a stored recurring entry, made at
    timestamps that never go back, the consumed amount is within the limit
    after every call. The window in force has one boundary, its end
    [window_start + windowLength], and every call is as [step] describes: a
    call accepted at or after the boundary leaves the entry reset, with the
    window starting at the call and holding what the call consumed, and any
    other call leaves the window where it was. So, for a window of positive
    length, the resets that are observed are exactly the accepted calls that
    cross a boundary, one reset for each; and every reset comes at least one
    window length after the start of the window it ends, so no boundary is
    reset twice. Rolling an entry over a second time at the same instant
    changes nothing. *)
Theorem recurring_entry_invariant (roleId : RoleId) (a : Action) (b : Budget) (w : N)
        (L : Ledger) (e : BudgetEntry) (calls : list Call) :
  budget a = Some b ->
  windowLength b = Some w ->
  L !! (roleId, a) = Some e ->
  (consumed e <= limit b)%N ->
  nondecreasing (window_start e) calls ->
  Forall2 (fun c observed =>
             exists e', snd observed !! (roleId, a) = Some e'
                        /\ (consumed e' <= limit b)%N)
          calls (trace roleId a L calls)
  /\ steps roleId a b w e calls (trace roleId a L calls)
  /\ ((0 < w)%N -> reset_times roleId a L calls = crossing_times roleId a w L calls)
  /\ spaced w (window_start e) (reset_times roleId a L calls)
  /\ (forall now e', rollover b now (rollover b now e') = rollover b now e').
Proof.
  intros Hb Hw He Hwithin Hclock.
  destruct (trace_recurring roleId a b w calls Hb Hw L e (window_start e))
    as (Hall & Hsteps & Hresets & Hspaced); [assumption | assumption | lia | assumption |].
  repeat split; try assumption.
  intros now e'. apply rollover_idempotent.
Qed.

Lemma recurring_entry_invariant_witness :
  let calls := [ {| call_amount := 60; call_destination := None; call_now := 100 |};
                 {| call_amount := 60; call_destination := None; call_now := 86401 |};
                 {| call_amount := 50; call_destination := None; call_now := 86402 |};
                 {| call_amount := 10; call_destination := None; call_now := 400000 |} ] in
  nondecreasing 0 calls
  /\ steps 1%N daily {| limit := 100; windowLength := Some 86400%N; destination := None |}
           86400 {| consumed := 60; window_start := 0 |} calls
           (trace 1%N daily (spent 60 0) calls)
  /\ spaced 86400 0 (reset_times 1%N daily (spent 60 0) calls).
Proof.
  intros calls.
  assert (Hclock : nondecreasing 0 calls) by (cbn; lia).
  split; [exact Hclock |].
  destruct (recurring_entry_invariant
              1%N daily _ 86400%N (spent 60 0)
              {| consumed := 60; window_start := 0 |} calls
              eq_refl eq_refl (lookup_singleton_eq _ _) ltac:(cbn; lia) Hclock)
    as (_ & Hsteps & _ & Hspaced & _).
  split; assumption.
Defined.

(** ** Requests with amount 0 *)




(** ** The delegation of roles *)

Lemma validate_rejected (curated : Id -> bool) (T : Treasury) (actorId : RoleId)
      (m : Management) (r : Reason) :
  validate curated T actorId m = Rejected r ->
  manage curated T actorId m = (Rejected r, T).
Proof. intros H. unfold manage. now rewrite H. Qed.

Lemma forallb_Forall {A} (f : A -> bool) (l : list A) :
  forallb f l = true <-> Forall (fun x => f x = true) l.
Proof.
  induction l as [| x l IH]; cbn.
  - split; [constructor | reflexivity].
  - rewrite andb_true_iff, Forall_cons_iff, IH. reflexivity.
Qed.

Lemma forallb_Exists {A} (f : A -> bool) (l : list A) :
  forallb f l = false <-> Exists (fun x => f x = false) l.
Proof.
  induction l as [| x l IH]; cbn.
  - split; [discriminate | intros H; inversion H].
  - rewrite andb_false_iff, Exists_cons, IH. reflexivity.
Qed.

(** C1: for every acting role but root, a request that grants actions is
    approved only if every action it grants is among the effective actions
    of the acting role, and a request, on a role other than role 0, that
    grants an action outside of them is rejected with [PrivilegeEscalation]
    and changes nothing. The second part is the scenario of section 8: the
    manager holds [ManageRoles] and a recurring allowance of 10 per window;
    its grant of 20 per window is rejected with [PrivilegeEscalation], its
    grant of 5 per window is approved and creates the role. *)
Theorem delegation_rejects_escalation :
  (forall (curated : Id -> bool) (T : Treasury) (actorId : RoleId) (acting : Role)
          (m : Management),
      roles T !! actorId = Some acting ->
      actorId <> 0%N ->
      (forall T', manage curated T actorId m = (Ok, T') ->
                  Forall (fun g => effective curated (entries T) actorId acting g = true)
                         (granted_by m))
      /\ (target m <> 0%N ->
          Exists (fun g => effective curated (entries T) actorId acting g = false)
                 (granted_by m) ->
          manage curated T actorId m = (Rejected PrivilegeEscalation, T)))
  /\ (forall W : N,
         manage no_curated (managed W) 1%N (AddRole 2%N 7%N [CurrencyRecurring 20 W])
         = (Rejected PrivilegeEscalation, managed W)
         /\ manage no_curated (managed W) 1%N (AddRole 2%N 7%N [CurrencyRecurring 5 W])
            = (Ok, {| roles := <[2%N := {| authority := 7%N; parent := Some 1%N;
                                           actions := [CurrencyRecurring 5 W] |}]>
                                 (roles (managed W));
                      entries := ∅;
                      version := 2 |})).
Proof.
  split.
  - intros curated T actorId acting m Hacting Hroot.
    apply N.eqb_neq in Hroot. split.
    + intros T' H. unfold manage in H.
      destruct (validate curated T actorId m) as [| r] eqn:Hv; [| discriminate H].
      unfold validate in Hv. rewrite Hacting, Hroot in Hv. cbn [negb andb orb] in Hv.
      destruct (negb (mutates m) && (target m =? 0)%N); [discriminate Hv |].
      destruct (mutates m && (target m =? 0)%N); [discriminate Hv |]. cbn [andb] in Hv.
      destruct (forallb (effective curated (entries T) actorId acting) (granted_by m))
        eqn:Hall; [| discriminate Hv].
      now apply forallb_Forall.
    + intros Htarget Hout. apply N.eqb_neq in Htarget. apply forallb_Exists in Hout.
      apply validate_rejected. unfold validate.
      rewrite Hacting, Hroot, Htarget, Hout, !andb_false_r. reflexivity.
  - intros W.
    assert (Hmanager : roles (managed W) !! 1%N = Some (manager W))
      by apply lookup_insert_eq.
    assert (Hscope : forall x, covers_grant no_curated ∅ 1%N (CurrencyRecurring 10 W)
                                            (CurrencyRecurring x W)
                               = (x <=? 10)%N).
    { intros x. unfold covers_grant. cbn.
      rewrite bool_decide_eq_true_2 by reflexivity. now rewrite lookup_empty. }
    split.
    + apply validate_rejected. unfold validate. rewrite Hmanager.
      cbn - [covers_grant]. now rewrite Hscope.
    + unfold manage, validate. rewrite Hmanager.
      cbn - [covers_grant store_insert]. rewrite Hscope. cbn - [store_insert].
      unfold store_insert. cbn [N.ltb N.compare Pos.compare Pos.compare_cont
                                  N.eqb andb roles entries version managed].
      assert (Hfree : (<[1%N := manager W]> {[ 0%N := root_role ]} : RoleStore) !! 2%N
                      = None).
      { rewrite lookup_insert_ne by discriminate. now apply lookup_singleton_ne. }
      rewrite Hfree. rewrite bool_decide_eq_false_2 by (intros [? [=]]).
      reflexivity.
Qed.

Lemma delegation_rejects_escalation_witness :
  roles (managed 86400) !! 1%N = Some (manager 86400)
  /\ manage no_curated (managed 86400) 1%N (AddAction 1%N [ProgramAny])
     = (Rejected PrivilegeEscalation, managed 86400).
Proof.
  assert (Hmanager : roles (managed 86400) !! 1%N = Some (manager 86400))
    by apply lookup_insert_eq.
  split; [exact Hmanager |].
  apply (proj2 (proj1 delegation_rejects_escalation no_curated (managed 86400) 1%N
                      (manager 86400) (AddAction 1%N [ProgramAny]) Hmanager
                      ltac:(discriminate))).
  - discriminate.
  - apply Exists_cons_hd. reflexivity.
Defined.

(** ** The protection of root *)

(** C4: every request to remove role 0 is rejected with [CannotRemoveRoot],
    whoever makes it, root included, and so is the removal of role 0 from
    the Role Store itself; every other request on role 0 made by a role that
    is not root (adding the role anew, adding or removing actions) is
    rejected with [CannotModifyRoot]. The treasury that comes back is the
    one that was given: the roles, the entries and the version are
    unchanged. *)
Theorem root_is_protected (curated : Id -> bool) (T : Treasury) (actorId : RoleId)
        (acting : Role) :
  roles T !! actorId = Some acting ->
  manage curated T actorId (RemoveRole 0%N) = (Rejected CannotRemoveRoot, T)
  /\ store_remove T 0%N = (Rejected CannotRemoveRoot, T)
  /\ (actorId <> 0%N ->
      forall m, mutates m = true -> target m = 0%N ->
                manage curated T actorId m = (Rejected CannotModifyRoot, T)).
Proof.
  intros Hacting. split; [| split].
  - apply validate_rejected. unfold validate. now rewrite Hacting.
  - reflexivity.
  - intros Hroot m Hm Ht. apply N.eqb_neq in Hroot.
    apply validate_rejected. unfold validate. rewrite Hacting, Hm, Ht, Hroot.
    reflexivity.
Qed.

Lemma root_is_protected_witness :
  manage no_curated (managed 86400) 0%N (RemoveRole 0%N)
  = (Rejected CannotRemoveRoot, managed 86400)
  /\ manage no_curated (managed 86400) 1%N (RemoveRole 0%N)
     = (Rejected CannotRemoveRoot, managed 86400)
  /\ manage no_curated (managed 86400) 1%N (RemoveAction 0%N [Universal])
     = (Rejected CannotModifyRoot, managed 86400).
Proof.
  assert (Hroot : roles (managed 86400) !! 0%N = Some root_role).
  { unfold managed. cbn [roles]. rewrite lookup_insert_ne by discriminate.
    apply lookup_singleton_eq. }
  assert (Hmanager : roles (managed 86400) !! 1%N = Some (manager 86400))
    by apply lookup_insert_eq.
  split; [| split].
  - apply (proj1 (root_is_protected no_curated (managed 86400) 0%N root_role Hroot)).
  - apply (proj1 (root_is_protected no_curated (managed 86400) 1%N (manager 86400)
                                    Hmanager)).
  - apply (proj2 (proj2 (root_is_protected no_curated (managed 86400) 1%N
                                           (manager 86400) Hmanager)));
      [discriminate | reflexivity | reflexivity].
Defined.

End EngineFacts.

(** * The rest of the client *)

(** ** Submitting a transaction *)

Lemma sendTransaction_confirmed (kit : Kit) (instructions : list IInstruction)
      (feePayer : KeyPairSigner) (signers : option (list KeyPairSigner))
      (w w' : World kit) (sig : Signature) :
  sendTransaction kit instructions feePayer signers w = (Return sig, w') <->
  confirmed kit w w' (signer_address feePayer) instructions sig.
Proof.
  unfold sendTransaction, confirmed, await, sync, resolve.
  destruct (getLatestBlockhash kit w) as [bh | e].
  2: { split; [discriminate | now intros (? & ? & [=] & _)]. }
  destruct (signTransactionMessageWithSigners kit _) as [tx | e] eqn:Es.
  2: { split; [discriminate |]. intros (bh' & tx' & [= <-] & Hs & _). congruence. }
  destruct (sendAndConfirm kit w tx) as [[[] | e] w1] eqn:Ec.
  - split.
    + intros [= <- <-]. exists bh, tx. repeat split; assumption.
    + intros (bh' & tx' & [= <-] & Hs & Hc & ->).
      rewrite Es in Hs. injection Hs as <-.
      rewrite Ec in Hc. injection Hc as <-. reflexivity.
  - split; [discriminate |].
    intros (bh' & tx' & [= <-] & Hs & Hc & _).
    rewrite Es in Hs. injection Hs as <-. congruence.
Qed.

(** X2. [sendTransaction] never reads its [signers] argument. It rejects
    with the cluster untouched when the blockhash cannot be fetched or the
    message cannot be signed, and it resolves exactly when the message of
    version 0 (fee payer, blockhash, the instructions given) was signed and
    confirmed, with the signature of the signed transaction. *)
Theorem sendTransaction_outcome (kit : Kit) (instructions : list IInstruction)
        (feePayer : KeyPairSigner) (signers : option (list KeyPairSigner))
        (w : World kit) :
  (forall signers',
      sendTransaction kit instructions feePayer signers' w
      = sendTransaction kit instructions feePayer signers w)
  /\ (forall e, getLatestBlockhash kit w = Throw e ->
                sendTransaction kit instructions feePayer signers w = (Throw e, w))
  /\ (forall latestBlockhash e,
         getLatestBlockhash kit w = Return latestBlockhash ->
         signTransactionMessageWithSigners kit
           {| tm_version := 0; tm_feePayer := signer_address feePayer;
              tm_lifetime := latestBlockhash; tm_instructions := instructions |}
         = Throw e ->
         sendTransaction kit instructions feePayer signers w = (Throw e, w))
  /\ (forall sig w',
         sendTransaction kit instructions feePayer signers w = (Return sig, w') <->
         confirmed kit w w' (signer_address feePayer) instructions sig).
Proof.
  split; [reflexivity |]. split; [| split].
  - intros e H. unfold sendTransaction, await. now rewrite H.
  - intros bh e Hb Hs. unfold sendTransaction, await, sync. now rewrite Hb, Hs.
  - intros sig w'. apply sendTransaction_confirmed.
Qed.

(** The library of the examples signs no message of the client. *)
Lemma confirming_refuses_unsigned : refuses_unsigned confirming.
Proof. intros m. exists SolanaError. reflexivity. Qed.

Lemma sendTransaction_outcome_witness :
  sendTransaction confirming [] payer_key None empty_cluster
  = sendTransaction confirming [] payer_key (Some [payer_key; manager_key]) empty_cluster
  /\ sendTransaction confirming [] payer_key (Some [payer_key; manager_key]) empty_cluster
     = (Throw SolanaError, empty_cluster).
Proof.
  pose proof (sendTransaction_outcome confirming [] payer_key
                (Some [payer_key; manager_key]) empty_cluster) as (Hs & _ & Hsign & _).
  split; [apply Hs |].
  apply (Hsign tt SolanaError); reflexivity.
Defined.

Lemma sendTransaction_refused (kit : Kit) (instructions : list IInstruction)
      (feePayer : KeyPairSigner) (signers : option (list KeyPairSigner))
      (w : World kit) :
  refuses_unsigned kit ->
  exists e, sendTransaction kit instructions feePayer signers w = (Throw e, w).
Proof.
  intros Hrefuse. unfold sendTransaction, await, sync.
  destruct (getLatestBlockhash kit w) as [latestBlockhash | e]; [| now exists e].
  destruct (Hrefuse {| tm_version := 0; tm_feePayer := signer_address feePayer;
                       tm_lifetime := latestBlockhash;
                       tm_instructions := instructions |}) as [e ->].
  now exists e.
Qed.

Lemma address_Return (kit : Kit) (s : string) (a : Address) :
  address kit s = Return a <-> isAddress kit s = true /\ a = s.
Proof.
  unfold address. destruct (isAddress kit s); split.
  - now intros [= <-].
  - now intros [_ ->].
  - discriminate.
  - now intros [[=] _].
Qed.

Lemma encodeId_ascii (id : string) :
  Forall ascii_unit (firstn 32 (list_ascii_of_string id)) ->
  exists idArray, encodeId id = Return idArray.
Proof.
  intros H. eexists. apply encodeId_Return. split; [exact H | reflexivity].
Qed.

(** With a library that signs no message of the client each submitting
    method rejects, at the latest when it submits, and the cluster is as it
    was. *)
Lemma createWallet_refused (kit : Kit) (p : CreateWalletParams) (w : World kit) :
  refuses_unsigned kit -> exists e, createWallet kit p w = (Throw e, w).
Proof.
  intros Hrefuse.
  unfold createWallet, await, sync, deriveSwigConfigAddress, deriveSwigWalletAddress,
    address.
  destruct (encodeId (cw_id p)) as [idArray | e]; [| now exists e].
  destruct (isAddress kit SYSTEM_PROGRAM); [| now exists SolanaError].
  match goal with
  | |- context [sendTransaction kit ?ixs ?payer ?signers w] =>
      destruct (sendTransaction_refused kit ixs payer signers w Hrefuse) as [e ->]
  end.
  now exists e.
Qed.

Lemma addAuthority_refused (kit : Kit) (p : AddAuthorityParams) (w : World kit) :
  refuses_unsigned kit -> exists e, addAuthority kit p w = (Throw e, w).
Proof.
  intros Hrefuse. unfold addAuthority, await, sync, address.
  destruct (isAddress kit SYSTEM_PROGRAM); [| now exists SolanaError].
  match goal with
  | |- context [sendTransaction kit ?ixs ?payer ?signers w] =>
      destruct (sendTransaction_refused kit ixs payer signers w Hrefuse) as [e ->]
  end.
  now exists e.
Qed.

Lemma removeAuthority_refused (kit : Kit) (p : RemoveAuthorityParams) (w : World kit) :
  refuses_unsigned kit -> exists e, removeAuthority kit p w = (Throw e, w).
Proof.
  intros Hrefuse. unfold removeAuthority, await, sync, address.
  destruct (isAddress kit SYSTEM_PROGRAM); [| now exists SolanaError].
  match goal with
  | |- context [sendTransaction kit ?ixs ?payer ?signers w] =>
      destruct (sendTransaction_refused kit ixs payer signers w Hrefuse) as [e ->]
  end.
  now exists e.
Qed.

Lemma signTransaction_refused (kit : Kit) (p : SignTransactionParams) (w : World kit) :
  refuses_unsigned kit -> exists e, signTransaction kit p w = (Throw e, w).
Proof.
  intros Hrefuse. unfold signTransaction, await.
  match goal with
  | |- context [sendTransaction kit ?ixs ?payer ?signers w] =>
      destruct (sendTransaction_refused kit ixs payer signers w Hrefuse) as [e ->]
  end.
  now exists e.
Qed.

(** X3. Every submitting method of the client ends by handing one
    instruction to [sendTransaction], with the payer of the request as fee
    payer: an instruction addressed to [SWIG_PROGRAM_ID] whose data is
    empty, whatever the request. The outcome of the method is the outcome of
    that submission. With a library that signs no message of the client, as
    no signer is attached to them, every method therefore rejects and the
    cluster is left as it was: nothing is sent. *)
Theorem client_hands_over_one_empty_instruction (kit : Kit) :
  isAddress kit SYSTEM_PROGRAM = true ->
  (forall p,
      Forall ascii_unit (firstn 32 (list_ascii_of_string (cw_id p))) ->
      exists ix,
        programAddress ix = SWIG_PROGRAM_ID /\ data ix = []
        /\ forall w,
            createWallet kit p w
            = handed_over kit (fun sig => {| cw_signature := sig;
                                             cw_configAddress := SYSTEM_PROGRAM;
                                             cw_walletAddress := SYSTEM_PROGRAM |})
                          ix (cw_payer p) w)
  /\ (forall p,
         exists ix,
           programAddress ix = SWIG_PROGRAM_ID /\ data ix = []
           /\ forall w,
               addAuthority kit p w
               = handed_over kit (fun sig => {| signature := sig |}) ix (aa_payer p) w)
  /\ (forall p,
         exists ix,
           programAddress ix = SWIG_PROGRAM_ID /\ data ix = []
           /\ forall w,
               removeAuthority kit p w
               = handed_over kit (fun sig => {| signature := sig |}) ix (ra_payer p) w)
  /\ (forall p,
         exists ix,
           programAddress ix = SWIG_PROGRAM_ID /\ data ix = []
           /\ forall w,
               signTransaction kit p w
               = handed_over kit (fun sig => {| signature := sig |}) ix (st_payer p) w)
  /\ (refuses_unsigned kit ->
      forall w,
        (forall p, exists e, createWallet kit p w = (Throw e, w))
        /\ (forall p, exists e, addAuthority kit p w = (Throw e, w))
        /\ (forall p, exists e, removeAuthority kit p w = (Throw e, w))
        /\ (forall p, exists e, signTransaction kit p w = (Throw e, w))).
Proof.
  intros Hsys.
  assert (Hadd : forall p, exists ix,
             programAddress ix = SWIG_PROGRAM_ID /\ data ix = []
             /\ forall w, addAuthority kit p w
                          = handed_over kit (fun sig => {| signature := sig |}) ix
                                        (aa_payer p) w).
  { intros p. exists (addAuthorityIx p SYSTEM_PROGRAM). repeat split. intros w.
    unfold addAuthority, await, sync, address. rewrite Hsys. reflexivity. }
  assert (Hremove : forall p, exists ix,
             programAddress ix = SWIG_PROGRAM_ID /\ data ix = []
             /\ forall w, removeAuthority kit p w
                          = handed_over kit (fun sig => {| signature := sig |}) ix
                                        (ra_payer p) w).
  { intros p. exists (removeAuthorityIx p SYSTEM_PROGRAM). repeat split. intros w.
    unfold removeAuthority, await, sync, address. rewrite Hsys. reflexivity. }
  assert (Hsign : forall p, exists ix,
             programAddress ix = SWIG_PROGRAM_ID /\ data ix = []
             /\ forall w, signTransaction kit p w
                          = handed_over kit (fun sig => {| signature := sig |}) ix
                                        (st_payer p) w).
  { intros p. eexists. split; [| split]; [| | intros w; reflexivity]; reflexivity. }
  split; [| split; [exact Hadd | split; [exact Hremove | split; [exact Hsign |]]]].
  - intros p Hid. apply encodeId_ascii in Hid. destruct Hid as [idArray Hid].
    eexists. split; [| split]; [| | intros w].
    3: { unfold createWallet, await, sync, deriveSwigConfigAddress,
           deriveSwigWalletAddress, address.
         rewrite Hid, Hsys. reflexivity. }
    all: reflexivity.
  - intros Hrefuse w. split; [| split; [| split]]; intros p.
    + now apply createWallet_refused.
    + now apply addAuthority_refused.
    + now apply removeAuthority_refused.
    + now apply signTransaction_refused.
Qed.

Lemma client_hands_over_one_empty_instruction_witness :
  (exists e, addAuthority confirming escalating_grant funded_cluster
             = (Throw e, funded_cluster))
  /\ (exists e, removeAuthority confirming (remove_role 0 1) funded_cluster
                = (Throw e, funded_cluster)).
Proof.
  pose proof (proj2 (proj2 (proj2 (proj2
                (client_hands_over_one_empty_instruction confirming eq_refl))))
                confirming_refuses_unsigned funded_cluster) as (_ & Hadd & Hremove & _).
  split; [apply Hadd | apply Hremove].
Defined.

(** ** The addresses of a wallet *)

(** X4. The two derivations ignore what they are given: the config address
    of every identifier and the wallet address of every config address are
    the placeholder of thirty-two ones, so all wallets are reported at one
    address, which is also their config address. *)
Theorem derived_addresses_are_placeholders (kit : Kit) :
  (forall id id', deriveSwigConfigAddress kit id = deriveSwigConfigAddress kit id')
  /\ (forall configAddress configAddress',
         deriveSwigWalletAddress kit configAddress
         = deriveSwigWalletAddress kit configAddress')
  /\ (forall id a, deriveSwigConfigAddress kit id = Return a -> a = SYSTEM_PROGRAM)
  /\ (forall configAddress a,
         deriveSwigWalletAddress kit configAddress = Return a -> a = SYSTEM_PROGRAM)
  /\ (isAddress kit SYSTEM_PROGRAM = true ->
      forall id configAddress,
        deriveSwigConfigAddress kit id = Return SYSTEM_PROGRAM
        /\ deriveSwigWalletAddress kit configAddress = Return SYSTEM_PROGRAM).
Proof.
  unfold deriveSwigConfigAddress, deriveSwigWalletAddress.
  split; [reflexivity |]. split; [reflexivity |].
  split; [| split].
  - intros _ a H. now apply address_Return in H.
  - intros _ a H. now apply address_Return in H.
  - intros Hsys _ _. unfold address. now rewrite Hsys.
Qed.

Lemma derived_addresses_are_placeholders_witness :
  deriveSwigConfigAddress confirming (utf8 "my-treasury") = Return SYSTEM_PROGRAM
  /\ deriveSwigWalletAddress confirming treasury_address = Return SYSTEM_PROGRAM.
Proof.
  apply (proj2 (proj2 (proj2 (proj2 (derived_addresses_are_placeholders confirming))))).
  reflexivity.
Defined.

Lemma encodeId_wide (id : string) :
  Exists (fun c => (128 <= N_of_ascii c)%N) (firstn 32 (list_ascii_of_string id)) ->
  encodeId id = Throw RangeError.
Proof.
  intros H. destruct (encodeId id) as [idArray | e] eqn:E.
  - apply encodeId_Return in E. destruct E as [Hall _].
    apply List.Exists_exists in H. destruct H as (c & Hin & Hc).
    rewrite List.Forall_forall in Hall. specialize (Hall c Hin). cbv beta in Hall. lia.
  - unfold encodeId, uint8array_set in E.
    destruct (_ <=? _)%nat; [discriminate | congruence].
Qed.

(** X5. [createWallet] reads neither the root authority nor, beyond
    checking that it can be encoded, the identifier: two requests with the
    same payer whose identifiers are ASCII in their first 32 characters end
    alike, with the same result and the same change of the cluster. *)
Theorem createWallet_ignores_root_and_identifier (kit : Kit) (p q : CreateWalletParams)
        (w : World kit) :
  cw_payer p = cw_payer q ->
  Forall ascii_unit (firstn 32 (list_ascii_of_string (cw_id p))) ->
  Forall ascii_unit (firstn 32 (list_ascii_of_string (cw_id q))) ->
  createWallet kit p w = createWallet kit q w.
Proof.
  intros Hpayer Hp Hq.
  apply encodeId_ascii in Hp, Hq. destruct Hp as [ip Hp], Hq as [iq Hq].
  unfold createWallet, await, sync.
  rewrite Hp, Hq, Hpayer. reflexivity.
Qed.

Lemma createWallet_ignores_root_and_identifier_witness :
  createWallet confirming create_long empty_cluster
  = createWallet confirming
      {| cw_rootAuthority := signer_address manager_key;
         cw_id := "t";
         cw_payer := payer_key |} empty_cluster.
Proof.
  apply createWallet_ignores_root_and_identifier; [reflexivity | |];
    repeat constructor.
Defined.

(** X6. An identifier with a character outside ASCII among its first 32 is
    rejected with a [RangeError] before anything is sent: it takes more than
    32 bytes and does not fit the array. *)
Theorem createWallet_rejects_wide_identifier (kit : Kit) (p : CreateWalletParams)
        (w : World kit) :
  Exists (fun c => (128 <= N_of_ascii c)%N)
         (firstn 32 (list_ascii_of_string (cw_id p))) ->
  createWallet kit p w = (Throw RangeError, w).
Proof.
  intros H. apply encodeId_wide in H.
  unfold createWallet, await, sync. now rewrite H.
Qed.

Lemma createWallet_rejects_wide_identifier_witness :
  createWallet confirming
    {| cw_rootAuthority := signer_address payer_key;
       cw_id := String (ascii_of_N 233) "tude";
       cw_payer := payer_key |} funded_cluster
  = (Throw RangeError, funded_cluster).
Proof.
  apply createWallet_rejects_wide_identifier.
  apply Exists_cons_hd. vm_compute. discriminate.
Defined.

(** ** signTransaction: the inner instructions *)

Lemma signTransaction_ignores_instructions_witness :
  signTransaction confirming sign_nothing funded_cluster
  = signTransaction confirming sign_transfer funded_cluster.
Proof.
  apply signTransaction_ignores_instructions; reflexivity.
Defined.

(** ** parsePermission: the fields it reads *)

(** X7. Whatever the kind, an action returned by [parsePermission] has for
    its type the text before the first colon, exactly as it was written. *)
Theorem parsePermission_keeps_kind (kit : Kit) (permission : string) (a : Action) :
  parsePermission kit permission = Return a ->
  type a = kind_of permission.
Proof.
  unfold parsePermission, kind_of.
  set (parts := split ":" permission). set (kind := nth 0 parts "").
  repeat match goal with
         | |- context [if one_of ?k ?l then _ else _] => destruct (one_of k l)
         end;
    intros H;
    repeat (apply bind_Return in H; destruct H as (? & _ & H));
    injection H as <-; reflexivity.
Qed.

Lemma parsePermission_keeps_kind_witness :
  type {| type := "solLimit "; amount := None; window := None;
          programId := None; destination := None |}
  = kind_of "solLimit :1".
Proof.
  apply (parsePermission_keeps_kind confirming). reflexivity.
Defined.

Lemma split_nonempty (sep : ascii) (s : string) : split sep s <> [].
Proof.
  destruct s as [| c s]; cbn; [discriminate |].
  destruct (Ascii.eqb c sep); [discriminate |].
  destruct (split sep s); discriminate.
Qed.

(** What comes after a separator is split on its own. *)
Lemma split_append (sep : ascii) (s t : string) :
  split sep (String.append s (String sep t)) = (split sep s ++ split sep t)%list.
Proof.
  induction s as [| c s IH]; simpl.
  - now rewrite Ascii.eqb_refl.
  - destruct (Ascii.eqb c sep); [now rewrite IH |].
    rewrite IH. pose proof (split_nonempty sep s) as Hne.
    destruct (split sep s); [contradiction | reflexivity].
Qed.

(** X8. [parsePermission] reads the first three fields at most: what is
    written after a third colon changes nothing, neither the action
    returned nor the error thrown. *)
Theorem parsePermission_ignores_further_fields (kit : Kit) (permission rest : string) :
  (3 <= List.length (split ":" permission))%nat ->
  parsePermission kit (String.append permission (String ":" rest))
  = parsePermission kit permission.
Proof.
  intros Hlen. unfold parsePermission. rewrite split_append.
  set (parts := split ":" permission) in *. set (more := split ":" rest).
  rewrite (app_nth1 parts more "") by lia.
  rewrite !(nth_error_app1 parts more) by lia.
  reflexivity.
Qed.

Lemma parsePermission_ignores_further_fields_witness :
  parsePermission confirming "SolRecurringLimit:0.5:3600:per-hour:extra"
  = parsePermission confirming "SolRecurringLimit:0.5:3600".
Proof.
  apply (parsePermission_ignores_further_fields confirming
           "SolRecurringLimit:0.5:3600" "per-hour:extra").
  vm_compute. lia.
Defined.

Lemma parseFloat_not_numeric (t : string) :
  starts_numeric t = false -> parseFloat t = NaN.
Proof.
  unfold starts_numeric, parseFloat.
  destruct (trimStart t) as [| c r]; [reflexivity |].
  destruct c as [[] [] [] [] [] [] [] []]; cbn; intros H;
    first [discriminate H | reflexivity].
Qed.

Lemma lamports_not_numeric (t : string) :
  t <> "" -> starts_numeric t = false -> lamports (Some t) = Throw RangeError.
Proof.
  intros Hne H. unfold lamports.
  replace (or_else (Some t) "0") with t by (destruct t; [contradiction | reflexivity]).
  now rewrite (parseFloat_not_numeric t H).
Qed.

(** X9. A one-time or recurring limit whose amount field is written but
    does not begin like a number is not taken as 0 and not reported with a
    message of its own: [parsePermission] throws the [RangeError] of the
    conversion to a big integer. *)
Theorem parsePermission_rejects_non_numeric_amount (kit : Kit)
        (permission amount : string) :
  one_of (kind_of permission) (one_time_kinds ++ recurring_kinds) = true ->
  nth_error (split ":" permission) 1 = Some amount ->
  amount <> "" ->
  starts_numeric amount = false ->
  parsePermission kit permission = Throw RangeError.
Proof.
  intros Hk Hf Hne Hnum. unfold parsePermission. fold (kind_of permission).
  rewrite Hf, (lamports_not_numeric amount Hne Hnum).
  unfold one_of in Hk. rewrite existsb_app in Hk. apply orb_true_iff in Hk.
  fold (one_of (kind_of permission) one_time_kinds) in Hk.
  fold (one_of (kind_of permission) recurring_kinds) in Hk.
  destruct (one_of (kind_of permission) one_time_kinds); [reflexivity |].
  destruct Hk as [Hk | Hk]; [discriminate Hk | now rewrite Hk].
Qed.

Lemma parsePermission_rejects_non_numeric_amount_witness :
  parsePermission confirming "SolRecurringLimit:ten:86400" = Throw RangeError.
Proof.
  apply (parsePermission_rejects_non_numeric_amount confirming
           "SolRecurringLimit:ten:86400" "ten");
    [reflexivity | reflexivity | discriminate | reflexivity].
Defined.

Lemma parseInt_not_numeric (t : string) :
  starts_numeric t = false -> parseInt t = NaN.
Proof.
  unfold starts_numeric, parseInt.
  destruct (trimStart t) as [| c r]; [reflexivity |].
  destruct c as [[] [] [] [] [] [] [] []]; cbn; intros H;
    first [discriminate H | reflexivity].
Qed.

(** X10. The window of a recurring limit is not checked the way the amount
    is: a window field that is written but does not begin like a number is
    accepted, and the action carries [NaN] for its window. *)
Theorem parsePermission_accepts_non_numeric_window (kit : Kit)
        (permission window_text : string) (v : Z) :
  one_of (kind_of permission) recurring_kinds = true ->
  lamports (nth_error (split ":" permission) 1) = Return v ->
  nth_error (split ":" permission) 2 = Some window_text ->
  window_text <> "" ->
  starts_numeric window_text = false ->
  parsePermission kit permission
  = Return {| type := kind_of permission; amount := Some v; window := Some NaN;
              programId := None; destination := None |}.
Proof.
  intros Hk Hv Hf Hne Hnum. unfold parsePermission. fold (kind_of permission).
  assert (H1 : one_of (kind_of permission) one_time_kinds = false).
  { apply one_of_In in Hk. cbn in Hk.
    destruct Hk as [Hk | [Hk | [Hk | []]]]; rewrite <- Hk; reflexivity. }
  rewrite H1, Hk, Hv, Hf. cbn [bind].
  replace (or_else (Some window_text) "86400") with window_text
    by (destruct window_text; [contradiction | reflexivity]).
  now rewrite (parseInt_not_numeric window_text Hnum).
Qed.

Lemma parsePermission_accepts_non_numeric_window_witness :
  parsePermission confirming "SolRecurringLimit:10:daily"
  = Return {| type := kind_of "SolRecurringLimit:10:daily"; amount := Some 10000000000;
              window := Some NaN; programId := None; destination := None |}.
Proof.
  apply (parsePermission_accepts_non_numeric_window confirming
           "SolRecurringLimit:10:daily" "daily" 10000000000);
    [reflexivity | reflexivity | reflexivity | discriminate | reflexivity].
Defined.

(** ** parsePermission: whole amounts *)

Lemma shifted_add (n n' : nat) (m : positive) :
  shifted (n + n') m = shifted n (shifted n' m).
Proof. induction n; cbn; congruence. Qed.

Lemma shifted_value (n : nat) (m : positive) :
  Zpos (shifted n m) = Zpos m * 2 ^ Z.of_nat n.
Proof.
  induction n as [| n IH]; [cbn; lia |].
  cbn [shifted]. rewrite Pos2Z.inj_xO, IH, Nat2Z.inj_succ, Z.pow_succ_r by lia. lia.
Qed.

Lemma shifted_mul (n n' : nat) (a c : positive) :
  (shifted n a * shifted n' c)%positive = shifted (n + n') (a * c).
Proof.
  apply Pos2Z.inj. rewrite Pos2Z.inj_mul, !shifted_value, Pos2Z.inj_mul, Nat2Z.inj_add,
    Z.pow_add_r by lia. lia.
Qed.

Lemma digits_shifted (n : nat) (m : positive) :
  Zpos (digits2_pos (shifted n m)) = Zpos (digits2_pos m) + Z.of_nat n.
Proof. induction n as [| n IH]; cbn [shifted digits2_pos]; lia. Qed.

Lemma digits_log2 (m : positive) : Zpos (digits2_pos m) = Z.log2 (Zpos m) + 1.
Proof.
  assert (H : digits2_pos m = Pos.size m) by (induction m; cbn; congruence).
  rewrite H. destruct m; cbn; lia.
Qed.

Lemma iter_shifted (m d : positive) : Pos.iter xO m d = shifted (Pos.to_nat d) m.
Proof.
  rewrite Pos2Nat.inj_iter. induction (Pos.to_nat d); cbn; congruence.
Qed.

Lemma iter_pos_nat {A} (f : A -> A) (n : positive) (x : A) :
  SpecFloat.iter_pos f n x = Nat.iter (Pos.to_nat n) f x.
Proof.
  revert x. induction n as [n IH | n IH |]; intros x; cbn [SpecFloat.iter_pos].
  - rewrite !IH, Pos2Nat.inj_xI.
    replace (S (2 * Pos.to_nat n)) with (Pos.to_nat n + (Pos.to_nat n + 1))%nat by lia.
    now rewrite !Nat.iter_add.
  - rewrite !IH, Pos2Nat.inj_xO.
    replace (2 * Pos.to_nat n)%nat with (Pos.to_nat n + Pos.to_nat n)%nat by lia.
    now rewrite Nat.iter_add.
  - reflexivity.
Qed.

Lemma shr_shifted (n : nat) (m : positive) (e : Z) :
  shr {| shr_m := Zpos (shifted n m); shr_r := false; shr_s := false |} e (Z.of_nat n)
  = ({| shr_m := Zpos m; shr_r := false; shr_s := false |}, e + Z.of_nat n).
Proof.
  destruct n as [| n]; [cbn; now rewrite Z.add_0_r |].
  change (Z.of_nat (S n)) with (Zpos (Pos.of_succ_nat n)).
  cbv beta iota delta [shr].
  rewrite iter_pos_nat, SuccNat2Pos.id_succ. f_equal.
  generalize (S n). clear n. intros n. induction n as [| n IH]; [reflexivity |].
  rewrite Nat.iter_succ_r. cbn [shifted shr_1 orb]. exact IH.
Qed.

Lemma round_aux_shifted (s : bool) (n : nat) (m : positive) (e : Z) :
  Zpos (digits2_pos m) = 53 -> -1074 <= e + Z.of_nat n <= 971 ->
  binary_round_aux 53 1024 s (Zpos (shifted n m)) e loc_Exact
  = S754_finite s m (e + Z.of_nat n).
Proof.
  intros Hd He. unfold binary_round_aux.
  assert (Hs : shr_fexp 53 1024 (Zpos (shifted n m)) e loc_Exact
               = ({| shr_m := Zpos m; shr_r := false; shr_s := false |}, e + Z.of_nat n)).
  { unfold shr_fexp, fexp, emin. cbn [Zdigits2 shr_record_of_loc].
    rewrite digits_shifted, Hd.
    replace (Z.max (53 + Z.of_nat n + e - 53) (3 - 1024 - 53) - e) with (Z.of_nat n) by lia.
    apply shr_shifted. }
  assert (Hs' : shr_fexp 53 1024 (Zpos m) (e + Z.of_nat n) loc_Exact
                = ({| shr_m := Zpos m; shr_r := false; shr_s := false |}, e + Z.of_nat n)).
  { unfold shr_fexp, fexp, emin. cbn [Zdigits2 shr_record_of_loc]. rewrite Hd.
    replace (Z.max (53 + (e + Z.of_nat n) - 53) (3 - 1024 - 53) - (e + Z.of_nat n))
      with 0 by lia.
    reflexivity. }
  rewrite Hs. cbn [shr_m loc_of_shr_record round_nearest_even]. rewrite Hs'.
  cbn [shr_m].
  replace (e + Z.of_nat n <=? 1024 - 53) with true by (symmetry; apply Z.leb_le; lia).
  reflexivity.
Qed.

(** A mantissa of 53 bits is kept as it is. *)
Lemma round_aux_canonical (s : bool) (m : positive) (e : Z) :
  Zpos (digits2_pos m) = 53 -> -1074 <= e <= 971 ->
  binary_round_aux 53 1024 s (Zpos m) e loc_Exact = S754_finite s m e.
Proof.
  intros Hd He. pose proof (round_aux_shifted s 0 m e Hd) as H.
  cbn [shifted Z.of_nat] in H. rewrite Z.add_0_r in H. now apply H.
Qed.

Lemma digits_integral (q : positive) :
  Zpos q < 2 ^ 53 ->
  Zpos (digits2_pos (shifted (53 - Pos.to_nat (digits2_pos q)) q)) = 53.
Proof.
  intros H. rewrite digits_shifted.
  assert (Zpos (digits2_pos q) <= 53).
  { rewrite digits_log2. apply Z.log2_lt_pow2 in H; lia. }
  lia.
Qed.

Lemma round_integral (neg : bool) (q : positive) :
  Zpos q < 2 ^ 53 -> binary_round 53 1024 neg q 0 = integral neg q.
Proof.
  intros H. pose proof (digits_integral q H) as Hd. rewrite digits_shifted in Hd.
  unfold binary_round, integral, shl_align, fexp, emin.
  set (k := (53 - Pos.to_nat (digits2_pos q))%nat) in *.
  replace (Z.max (Zpos (digits2_pos q) + 0 - 53) (3 - 1024 - 53) - 0)
    with (- Z.of_nat k) by lia.
  replace (Z.max (Zpos (digits2_pos q) + 0 - 53) (3 - 1024 - 53))
    with (- Z.of_nat k) by lia.
  clearbody k. destruct k as [| k].
  - cbn [Z.of_nat Z.opp shifted]. apply round_aux_canonical; lia.
  - change (- Z.of_nat (S k)) with (Zneg (Pos.of_succ_nat k)). cbv beta iota.
    rewrite iter_shifted, SuccNat2Pos.id_succ.
    apply round_aux_canonical; [rewrite digits_shifted |]; lia.
Qed.

Lemma mul_integral (neg : bool) (a c : positive) :
  Zpos a * Zpos c < 2 ^ 53 ->
  mul (integral neg a) (integral false c) = integral neg (a * c).
Proof.
  intros H.
  assert (Ha : Zpos a < 2 ^ 53) by nia. assert (Hc : Zpos c < 2 ^ 53) by nia.
  pose proof (digits_integral a Ha) as Da. pose proof (digits_integral c Hc) as Dc.
  pose proof (digits_integral (a * c) H) as Dac.
  rewrite digits_shifted in Da, Dc.
  pose proof (Z.log2_mul_below (Zpos a) (Zpos c) eq_refl eq_refl) as Hlog.
  pose proof (digits_log2 a) as La. pose proof (digits_log2 c) as Lc.
  pose proof (digits_log2 (a * c)) as Lac. rewrite Pos2Z.inj_mul in Lac.
  unfold mul, integral, SFmul. rewrite xorb_false_r.
  set (ka := (53 - Pos.to_nat (digits2_pos a))%nat) in *.
  set (kc := (53 - Pos.to_nat (digits2_pos c))%nat) in *.
  set (kac := (53 - Pos.to_nat (digits2_pos (a * c)))%nat) in *.
  rewrite shifted_mul.
  replace (ka + kc)%nat with ((ka + kc - kac) + kac)%nat.
  2:{ rewrite digits_shifted in Dac. lia. }
  rewrite shifted_add.
  rewrite round_aux_shifted; [f_equal | exact Dac |].
  - rewrite digits_shifted in Dac. lia.
  - rewrite digits_shifted in Dac. lia.
Qed.

Lemma floor_integral (neg : bool) (q : positive) :
  Zpos q < 2 ^ 53 -> floor (integral neg q) = integral neg q.
Proof.
  intros H. unfold floor, integral at 1.
  set (k := (53 - Pos.to_nat (digits2_pos q))%nat).
  destruct (0 <=? - Z.of_nat k) eqn:E; [reflexivity |].
  cbv zeta. rewrite Z.opp_involutive, shifted_value.
  rewrite Z.shiftr_div_pow2, Z.div_mul, Z.shiftl_mul_pow2, Z.eqb_refl by lia.
  destruct neg; cbn [binary_normalize Z.opp]; now apply round_integral.
Qed.

Lemma BigInt_integral (neg : bool) (q : positive) :
  BigInt (integral neg q) = Return (cond_Zopp neg (Zpos q)).
Proof.
  unfold BigInt, integral.
  set (k := (53 - Pos.to_nat (digits2_pos q))%nat).
  rewrite shifted_value.
  destruct (0 <=? - Z.of_nat k) eqn:E.
  - apply Z.leb_le in E. assert (H : k = O) by lia. rewrite H.
    cbn [Z.of_nat Z.opp]. rewrite Z.shiftl_mul_pow2 by lia. do 2 f_equal. lia.
  - rewrite Z.opp_involutive.
    rewrite Z.shiftr_div_pow2, Z.div_mul, Z.shiftl_mul_pow2, Z.eqb_refl by lia.
    reflexivity.
Qed.

(** ** Whole amounts *)

Lemma digits_decimal (s : string) (acc : N) (count : nat) (n : N) :
  decimal s acc = Some n ->
  digits digit 10 s acc count = (n, (count + String.length s)%nat, "").
Proof.
  revert acc count. induction s as [| c s IH]; intros acc count; cbn [decimal digits].
  - intros [= ->]. cbn. now rewrite Nat.add_0_r.
  - destruct (digit c) as [d |]; [| discriminate].
    intros H. rewrite (IH _ (S count) H). cbn [String.length]. do 2 f_equal. lia.
Qed.

Lemma digit_starts (c : ascii) (s : string) (d : N) :
  digit c = Some d ->
  isWhiteSpace c = false
  /\ sign (String c s) = (false, String c s)
  /\ String.prefix "Infinity" (String c s) = false.
Proof.
  destruct c as [[] [] [] [] [] [] [] []]; cbn; intros H;
    first [discriminate H | repeat split; reflexivity].
Qed.

(** The value of a numeral: a sign, digits, nothing else. *)
Lemma parseFloat_numeral (neg : bool) (s : string) (n : N) :
  s <> "" -> decimal s 0 = Some n ->
  parseFloat (if neg then String "-" s else s) = of_decimal neg n 0.
Proof.
  intros Hne Hn. destruct s as [| c s]; [contradiction |].
  assert (Hd : exists d, digit c = Some d).
  { cbn [decimal] in Hn. destruct (digit c) as [d |]; [now exists d | discriminate]. }
  destruct Hd as [d Hd].
  destruct (digit_starts c s d Hd) as (Hws & Hsign & Hinf).
  assert (Hstart : sign (trimStart (if neg then String "-" (String c s) else String c s))
                   = (neg, String c s)).
  { destruct neg; cbn [trimStart]; [reflexivity |]. now rewrite Hws. }
  unfold parseFloat. rewrite Hstart, Hinf, (digits_decimal _ 0%N O n Hn).
  cbn [String.length Nat.add Nat.eqb Z.of_nat Z.sub Z.opp Z.add]. reflexivity.
Qed.

Lemma lamports_numeral (neg : bool) (s : string) (n : N) :
  s <> "" -> decimal s 0 = Some n ->
  Z.of_N n * 1000000000 < 2 ^ 53 ->
  lamports (Some (if neg then String "-" s else s))
  = Return (cond_Zopp neg (Z.of_N n * 1000000000)).
Proof.
  intros Hne Hn Hb. unfold lamports.
  replace (or_else (Some (if neg then String "-" s else s)) "0")
    with (if neg then String "-" s else s)
    by (destruct neg; [reflexivity | destruct s; [contradiction | reflexivity]]).
  rewrite (parseFloat_numeral neg s n Hne Hn).
  assert (Hg : of_Z 1000000000 = integral false 1000000000).
  { apply (round_integral false 1000000000). reflexivity. }
  rewrite Hg. destruct n as [| p].
  - destruct neg; reflexivity.
  - unfold of_decimal. cbn [Z.leb Z.compare Z.pow Z.to_pos]. rewrite Pos.mul_1_r.
    rewrite round_integral by lia.
    rewrite mul_integral, floor_integral, BigInt_integral by (cbn [Z.of_N] in Hb; lia).
    reflexivity.
Qed.

(** Beyond whole numbers the product is rounded before the floor is taken:
    2.01 SOL comes out one lamport short. *)
Example lamports_of_a_fraction : lamports (Some "2.01") = Return 2009999999.
Proof. vm_compute. reflexivity. Qed.

(** X11. A one-time or recurring limit whose amount is written as a whole
    number of SOL up to 9007199 is converted exactly: the action carries
    that number times [10 ^ 9] lamports, with no rounding by the
    floating-point product. *)
Theorem parsePermission_whole_amount (kit : Kit) (permission text : string) (n : N) :
  one_of (kind_of permission) (one_time_kinds ++ recurring_kinds) = true ->
  nth_error (split ":" permission) 1 = Some text ->
  text <> "" ->
  decimal text 0 = Some n ->
  Z.of_N n * 1000000000 < 2 ^ 53 ->
  exists a, parsePermission kit permission = Return a
            /\ amount a = Some (Z.of_N n * 1000000000).
Proof.
  intros Hk Hf Hne Hn Hb. unfold parsePermission. fold (kind_of permission).
  rewrite Hf, (lamports_numeral false text n Hne Hn Hb).
  unfold one_of in Hk. rewrite existsb_app in Hk. apply orb_true_iff in Hk.
  fold (one_of (kind_of permission) one_time_kinds) in Hk.
  fold (one_of (kind_of permission) recurring_kinds) in Hk.
  destruct (one_of (kind_of permission) one_time_kinds);
    [eexists; split; reflexivity |].
  destruct Hk as [Hk | Hk]; [discriminate Hk |]. rewrite Hk.
  eexists; split; reflexivity.
Qed.

Lemma parsePermission_whole_amount_witness :
  exists a, parsePermission confirming "SolLimit:9007199" = Return a
            /\ amount a = Some (9007199 * 1000000000).
Proof.
  apply (parsePermission_whole_amount confirming "SolLimit:9007199" "9007199" 9007199);
    [reflexivity | reflexivity | discriminate | reflexivity | reflexivity].
Defined.

(** X12. A negative amount is not rejected: a one-time or recurring limit
    whose amount is a minus sign followed by a whole number up to 9007199
    is returned with that negative number of lamports. *)
Theorem parsePermission_accepts_negative_amount (kit : Kit) (permission text : string)
        (n : N) :
  one_of (kind_of permission) (one_time_kinds ++ recurring_kinds) = true ->
  nth_error (split ":" permission) 1 = Some (String "-" text) ->
  text <> "" ->
  decimal text 0 = Some n ->
  Z.of_N n * 1000000000 < 2 ^ 53 ->
  exists a, parsePermission kit permission = Return a
            /\ amount a = Some (- (Z.of_N n * 1000000000)).
Proof.
  intros Hk Hf Hne Hn Hb. unfold parsePermission. fold (kind_of permission).
  rewrite Hf, (lamports_numeral true text n Hne Hn Hb).
  unfold one_of in Hk. rewrite existsb_app in Hk. apply orb_true_iff in Hk.
  fold (one_of (kind_of permission) one_time_kinds) in Hk.
  fold (one_of (kind_of permission) recurring_kinds) in Hk.
  destruct (one_of (kind_of permission) one_time_kinds);
    [eexists; split; reflexivity |].
  destruct Hk as [Hk | Hk]; [discriminate Hk |]. rewrite Hk.
  eexists; split; reflexivity.
Qed.

Lemma parsePermission_accepts_negative_amount_witness :
  exists a, parsePermission confirming "SolRecurringLimit:-5:86400" = Return a
            /\ amount a = Some (- (5 * 1000000000)).
Proof.
  apply (parsePermission_accepts_negative_amount confirming
           "SolRecurringLimit:-5:86400" "5" 5);
    [reflexivity | reflexivity | discriminate | reflexivity | reflexivity].
Defined.

(** * The scripts *)

(** ** The list of permissions of add-agent.ts *)

Lemma map_throwing_Return {A B} (f : A -> result B) (l : list A) (ys : list B) :
  map_throwing f l = Return ys <-> Forall2 (fun x y => f x = Return y) l ys.
Proof.
  revert ys. induction l as [| x l IH]; intros ys; cbn.
  - split.
    + intros [= <-]. constructor.
    + intros H. inversion H. reflexivity.
  - rewrite bind_Return. split.
    + intros (y & Hy & H). apply bind_Return in H. destruct H as (ys' & Hys & [= <-]).
      constructor; [exact Hy | now apply IH].
    + intros H. inversion H as [| x' y l' ys' Hy Hys]; subst.
      exists y. split; [exact Hy |]. apply bind_Return.
      exists ys'. split; [now apply IH | reflexivity].
Qed.

Lemma map_throwing_app {A B} (f : A -> result B) (l l' : list A) :
  map_throwing f (l ++ l')
  = bind (map_throwing f l) (fun ys =>
    bind (map_throwing f l') (fun ys' => Return (ys ++ ys')%list)).
Proof.
  induction l as [| x l IH]; cbn.
  - destruct (map_throwing f l'); reflexivity.
  - destruct (f x) as [y | e]; cbn; [| reflexivity].
    rewrite IH. destruct (map_throwing f l) as [ys | e]; cbn; [| reflexivity].
    destruct (map_throwing f l'); reflexivity.
Qed.

Lemma map_throwing_Throw {A B} (f : A -> result B) (l : list A) (e : exn) :
  map_throwing f l = Throw e <->
  exists before x after,
    l = (before ++ x :: after)%list
    /\ Forall (fun x' => exists y, f x' = Return y) before
    /\ f x = Throw e.
Proof.
  induction l as [| x l IH]; cbn.
  - split; [discriminate |]. intros (before & x & after & H & _).
    destruct before; discriminate H.
  - destruct (f x) as [y | e'] eqn:Ex; cbn.
    + assert (Hbind : bind (map_throwing f l) (fun ys => Return (y :: ys)) = Throw e
                      <-> map_throwing f l = Throw e)
        by (destruct (map_throwing f l); cbn; split; congruence).
      rewrite Hbind, IH. split.
      * intros (before & x' & after & -> & Hb & Hx).
        exists (x :: before), x', after. repeat split; [| exact Hx].
        constructor; [now exists y | exact Hb].
      * intros (before & x' & after & H & Hb & Hx).
        destruct before as [| x0 before]; cbn in H; injection H as -> ->.
        -- congruence.
        -- apply Forall_cons_iff in Hb. destruct Hb as [_ Hb].
           now exists before, x', after.
    + split.
      * intros [= ->]. exists [], x, l. repeat split; [constructor | exact Ex].
      * intros (before & x' & after & H & Hb & Hx).
        destruct before as [| x0 before]; cbn in H; injection H as -> ->.
        -- congruence.
        -- apply Forall_cons_iff in Hb. destruct Hb as [[y Hy] _]. congruence.
Qed.

(** X13. The permissions of add-agent are converted item by item, from
    left to right. The list is accepted exactly when every comma-separated
    item, trimmed, is accepted by [parsePermission], and the actions are one
    per item in the order written; it is rejected exactly when some item is,
    with the error of the first item that [parsePermission] rejects. *)
Theorem parsePermissionList_outcome (kit : Kit) (permissions : string) :
  (forall actions,
      parsePermissionList kit permissions = Return actions <->
      Forall2 (fun item a => parsePermission kit (trim item) = Return a)
              (split "," permissions) actions)
  /\ (forall e,
         parsePermissionList kit permissions = Throw e <->
         exists before item after,
           split "," permissions = (before ++ item :: after)%list
           /\ Forall (fun item' => exists a, parsePermission kit (trim item') = Return a)
                     before
           /\ parsePermission kit (trim item) = Throw e).
Proof.
  unfold parsePermissionList. split.
  - intros actions. apply map_throwing_Return.
  - intros e. apply map_throwing_Throw.
Qed.

Lemma parsePermissionList_outcome_witness :
  parsePermissionList confirming "ProgramAll, SolLimit:ten ,Program:nowhere"
  = Throw RangeError.
Proof.
  apply (proj2 (parsePermissionList_outcome confirming
                  "ProgramAll, SolLimit:ten ,Program:nowhere") RangeError).
  exists ["ProgramAll"], " SolLimit:ten ", ["Program:nowhere"].
  split; [reflexivity |]. split; [| reflexivity].
  constructor; [| constructor]. now exists (bare "ProgramAll").
Defined.

(** X14. The types of the actions handed to [addAuthority] are the kinds of
    the items as written, one per item and in order, known kind or not. *)
Theorem parsePermissionList_kinds (kit : Kit) (permissions : string)
        (actions : list Action) :
  parsePermissionList kit permissions = Return actions ->
  map type actions = map (fun item => kind_of (trim item)) (split "," permissions).
Proof.
  intros H. apply map_throwing_Return in H.
  induction H as [| item a items actions Ha _ IH]; cbn; [reflexivity |].
  f_equal; [| exact IH].
  unfold parsePermission, kind_of in *.
  set (parts := split ":" (trim item)) in *. set (kind := nth 0 parts "") in *.
  repeat match type of Ha with
         | context [if one_of ?k ?l then _ else _] => destruct (one_of k l)
         end;
    repeat (apply bind_Return in Ha; destruct Ha as (? & _ & Ha));
    injection Ha as <-; reflexivity.
Qed.

Lemma parsePermissionList_kinds_witness :
  map type [bare "ManageAuthority"; bare "Anything"; bare "ProgramAll"]
  = map (fun item => kind_of (trim item))
        (split "," "ManageAuthority, Anything:1 ,ProgramAll").
Proof.
  apply (parsePermissionList_kinds confirming). reflexivity.
Defined.

(** X15. An empty item is not skipped and not rejected: a comma at the end
    of the permissions adds an action whose type is the empty string. *)
Theorem parsePermissionList_trailing_comma (kit : Kit) (permissions : string) :
  parsePermissionList kit (String.append permissions ",")
  = bind (parsePermissionList kit permissions) (fun actions =>
    Return (actions ++ [bare ""])%list).
Proof.
  unfold parsePermissionList. rewrite split_append, map_throwing_app.
  destruct (map_throwing _ (split "," permissions)); reflexivity.
Qed.

(** ** The path of a key file *)

Lemma cut_at_absent (c : ascii) (s : string) :
  ~ In c (list_ascii_of_string s) -> cut_at c s = None.
Proof.
  induction s as [| x s IH]; cbn; [reflexivity |]. intros H.
  destruct (Ascii.eqb x c) eqn:E.
  - apply Ascii.eqb_eq in E. tauto.
  - rewrite IH; [reflexivity | tauto].
Qed.

Lemma cut_at_first (c : ascii) (before after : string) :
  ~ In c (list_ascii_of_string before) ->
  cut_at c (String.append before (String c after)) = Some (before, after).
Proof.
  induction before as [| x s IH]; simpl.
  - now rewrite Ascii.eqb_refl.
  - intros H. destruct (Ascii.eqb x c) eqn:E.
    + apply Ascii.eqb_eq in E. tauto.
    + rewrite IH; [reflexivity | tauto].
Qed.

Lemma substitution_plain (matched before after replacement : string) :
  ~ In "$"%char (list_ascii_of_string replacement) ->
  substitution matched before after replacement = replacement.
Proof.
  induction replacement as [| c r IH]; cbn - [Ascii.eqb]; [reflexivity |]. intros H.
  destruct (Ascii.eqb c "$") eqn:E.
  - apply Ascii.eqb_eq in E. tauto.
  - rewrite IH; [reflexivity | tauto].
Qed.

(** X16. A path without a tilde is used as it is. Otherwise the first
    tilde, wherever it stands in the path, is replaced by the value of
    [HOME] (by nothing when [HOME] is unset or empty), provided that value
    holds no dollar sign; later tildes stay. *)
Theorem expandHome_first_tilde (host : Host) :
  (forall path,
      ~ In "~"%char (list_ascii_of_string path) -> expandHome host path = path)
  /\ (forall before after,
         ~ In "~"%char (list_ascii_of_string before) ->
         ~ In "$"%char (list_ascii_of_string (or_else (HOME host) "")) ->
         expandHome host (String.append before (String "~" after))
         = String.append before (String.append (or_else (HOME host) "") after)).
Proof.
  split.
  - intros path H. unfold expandHome, replace. now rewrite cut_at_absent.
  - intros before after Hb Hh. unfold expandHome, replace.
    rewrite cut_at_first by exact Hb. now rewrite substitution_plain.
Qed.

Lemma expandHome_first_tilde_witness :
  expandHome laptop "keys/ceo.json" = "keys/ceo.json"
  /\ expandHome laptop "~/.config/solana/id.json" = "/home/agent/.config/solana/id.json"
  /\ expandHome homeless "backup~/~.json" = "backup/~.json".
Proof.
  split; [| split].
  - apply (proj1 (expandHome_first_tilde laptop)). cbn. intuition discriminate.
  - apply (proj2 (expandHome_first_tilde laptop) "" "/.config/solana/id.json").
    + cbn. intuition discriminate.
    + cbn. intuition discriminate.
  - apply (proj2 (expandHome_first_tilde homeless) "backup" "/~.json").
    + cbn. intuition discriminate.
    + cbn. intuition discriminate.
Defined.

(** ** add-agent.ts and create-treasury.ts *)

(** X17. As the library checks addresses, neither script gets as far as
    [main]: the literal of [SWIG_PROGRAM_ID] is not an address, so the
    import of [./swig-client] throws and the script ends with that exception
    unhandled, whatever its arguments, [--help] included. Nothing is
    printed, no key is loaded, nothing is sent. Only with a library that
    takes the literal for an address does a script run its [main]. *)
Theorem scripts_end_at_import (host : Host) (kit : Kit) (w : World kit) :
  (isAddress kit SWIG_PROGRAM_ID = false ->
   (forall v, add_agent host kit v w
              = {| ending := Unhandled SolanaError; console := []; cluster := w |})
   /\ (forall v, create_treasury host kit v w
                 = {| ending := Unhandled SolanaError; console := []; cluster := w |}))
  /\ (isAddress kit SWIG_PROGRAM_ID = true ->
      (forall v, add_agent host kit v w = add_agent_main host kit v w)
      /\ (forall v, create_treasury host kit v w = create_treasury_main host kit v w)).
Proof.
  unfold add_agent, create_treasury, load_swig_client, address.
  split; intros ->; split; reflexivity.
Qed.

Lemma scripts_end_at_import_witness :
  Base58.isAddress SWIG_PROGRAM_ID = false
  /\ add_agent laptop confirming add_manager funded_cluster
     = Build_Run confirming (Unhandled SolanaError) [] funded_cluster
  /\ create_treasury laptop confirming
       {| cv_root := None; cv_id := None; cv_payer := ""; cv_help := true |} empty_cluster
     = Build_Run confirming (Unhandled SolanaError) [] empty_cluster.
Proof.
  split; [reflexivity |].
  split; apply (proj1 (scripts_end_at_import laptop confirming _)); reflexivity.
Defined.

(** X19. add-agent never sends anything when the library signs no message
    of the client, as no signer is ever attached to them: whether the script
    stops at its import or runs [main], it does not complete, and the
    cluster is left as it was. *)
Theorem add_agent_sends_nothing (host : Host) (kit : Kit) (v : AddAgentValues)
        (w : World kit) :
  refuses_unsigned kit ->
  (ending (add_agent host kit v w) <> Completed
   /\ cluster (add_agent host kit v w) = w)
  /\ (ending (add_agent_main host kit v w) <> Completed
      /\ cluster (add_agent_main host kit v w) = w).
Proof.
  intros Hrefuse.
  assert (Hmain : ending (add_agent_main host kit v w) <> Completed
                  /\ cluster (add_agent_main host kit v w) = w).
  { unfold add_agent_main.
    destruct (av_help v || _ || _ || _ || _); [split; [discriminate | reflexivity] |].
    destruct (loadKeypair host (expandHome host (av_payer v))) as [payer | e];
      [| split; [discriminate | reflexivity]].
    destruct (if given (av_signer v) then _ else _) as [actingSigner | e];
      [| split; [discriminate | reflexivity]].
    destruct (parsePermissionList kit _) as [permissions | e];
      [| split; [discriminate | reflexivity]].
    unfold await, sync.
    destruct (address kit (text (av_wallet v))) as [walletAddress | e];
      [| split; [discriminate | reflexivity]].
    destruct (address kit (text (av_authority v))) as [authority | e];
      [| split; [discriminate | reflexivity]].
    match goal with
    | |- context [addAuthority kit ?p w] =>
        destruct (addAuthority_refused kit p w Hrefuse) as [e ->]
    end.
    split; [discriminate | reflexivity]. }
  split; [| exact Hmain].
  unfold add_agent. destruct (load_swig_client kit); [exact Hmain |].
  split; [discriminate | reflexivity].
Qed.

Lemma add_agent_sends_nothing_witness :
  ending (add_agent_main laptop confirming add_manager funded_cluster) <> Completed
  /\ cluster (add_agent_main laptop confirming add_manager funded_cluster) = funded_cluster.
Proof.
  apply (add_agent_sends_nothing laptop confirming add_manager funded_cluster).
  exact confirming_refuses_unsigned.
Defined.

(** X22. add-agent checks neither the role id nor the acting role id:
    whatever text is given for them (the help text asks for 1 to 255), two
    runs that agree on the other options end alike and leave the cluster
    alike. *)
Theorem add_agent_role_unchecked (host : Host) (kit : Kit) (v v' : AddAgentValues)
        (w : World kit) :
  av_wallet v = av_wallet v' ->
  av_authority v = av_authority v' ->
  av_permissions v = av_permissions v' ->
  av_signer v = av_signer v' ->
  av_payer v = av_payer v' ->
  av_help v = av_help v' ->
  given (av_role v) = true ->
  given (av_role v') = true ->
  ending (add_agent_main host kit v w) = ending (add_agent_main host kit v' w)
  /\ cluster (add_agent_main host kit v w) = cluster (add_agent_main host kit v' w).
Proof.
  destruct v as [wallet role authority permissions acting signer payer help].
  destruct v' as [wallet' role' authority' permissions' acting' signer' payer' help'].
  cbn [av_wallet av_role av_authority av_permissions av_acting_role av_signer
       av_payer av_help].
  intros <- <- <- <- <- <- Hr Hr'. unfold add_agent_main.
  cbn [av_wallet av_role av_authority av_permissions av_acting_role av_signer
       av_payer av_help].
  rewrite Hr, Hr'.
  destruct (help || _ || _ || _ || _); [now split |].
  destruct (loadKeypair host (expandHome host payer)) as [payerKey | e]; [| now split].
  destruct (if given signer then _ else _) as [actingSigner | e]; [| now split].
  destruct (parsePermissionList kit (text permissions)) as [actions | e]; [| now split].
  unfold await, sync.
  destruct (address kit (text wallet)) as [walletAddress | e]; [| now split].
  destruct (address kit (text authority)) as [authorityAddress | e]; [| now split].
  unfold addAuthority, addAuthorityIx, await, sync.
  cbn [aa_walletAddress aa_payer aa_actingSigner].
  destruct (address kit SYSTEM_PROGRAM) as [system | e]; [| now split].
  destruct (sendTransaction kit _ payerKey _ w) as [[sig | e] w']; now split.
Qed.

Lemma add_agent_role_unchecked_witness :
  ending (add_agent_main laptop confirming add_manager funded_cluster)
  = ending (add_agent_main laptop confirming
              {| av_wallet := av_wallet add_manager;
                 av_role := Some "root";
                 av_authority := av_authority add_manager;
                 av_permissions := av_permissions add_manager;
                 av_acting_role := Some "-1";
                 av_signer := av_signer add_manager;
                 av_payer := av_payer add_manager;
                 av_help := av_help add_manager |} funded_cluster)
  /\ cluster (add_agent_main laptop confirming add_manager funded_cluster)
     = cluster (add_agent_main laptop confirming
                  {| av_wallet := av_wallet add_manager;
                     av_role := Some "root";
                     av_authority := av_authority add_manager;
                     av_permissions := av_permissions add_manager;
                     av_acting_role := Some "-1";
                     av_signer := av_signer add_manager;
                     av_payer := av_payer add_manager;
                     av_help := av_help add_manager |} funded_cluster).
Proof.
  apply add_agent_role_unchecked; reflexivity.
Defined.

(** X23. create-treasury never sends anything when the library signs no
    message of the client: whether the script stops at its import or runs
    [main], it does not complete, and the cluster is left as it was. *)
Theorem create_treasury_sends_nothing (host : Host) (kit : Kit)
        (v : CreateTreasuryValues) (w : World kit) :
  refuses_unsigned kit ->
  (ending (create_treasury host kit v w) <> Completed
   /\ cluster (create_treasury host kit v w) = w)
  /\ (ending (create_treasury_main host kit v w) <> Completed
      /\ cluster (create_treasury_main host kit v w) = w).
Proof.
  intros Hrefuse.
  assert (Hmain : ending (create_treasury_main host kit v w) <> Completed
                  /\ cluster (create_treasury_main host kit v w) = w).
  { unfold create_treasury_main.
    destruct (cv_help v || _ || _); [split; [discriminate | reflexivity] |].
    destruct (loadKeypair host (expandHome host (cv_payer v))) as [payer | e];
      [| split; [discriminate | reflexivity]].
    unfold await, sync.
    destruct (address kit (text (cv_root v))) as [rootAuthority | e];
      [| split; [discriminate | reflexivity]].
    match goal with
    | |- context [createWallet kit ?p w] =>
        destruct (createWallet_refused kit p w Hrefuse) as [e ->]
    end.
    split; [discriminate | reflexivity]. }
  split; [| exact Hmain].
  unfold create_treasury. destruct (load_swig_client kit); [exact Hmain |].
  split; [discriminate | reflexivity].
Qed.

Lemma create_treasury_sends_nothing_witness :
  ending (create_treasury_main laptop confirming create_my_treasury empty_cluster)
  <> Completed
  /\ cluster (create_treasury_main laptop confirming create_my_treasury empty_cluster)
     = empty_cluster.
Proof.
  apply (create_treasury_sends_nothing laptop confirming create_my_treasury empty_cluster).
  exact confirming_refuses_unsigned.
Defined.

(** X24. create-treasury does not hold the identifier to the 32 characters
    its help text names, and the identifier decides nothing: two runs with
    the same root, payer and [--help] whose identifiers are not empty and are
    ASCII in their first 32 characters end alike and leave the cluster
    alike. *)
Theorem create_treasury_identifier_unchecked (host : Host) (kit : Kit)
        (v v' : CreateTreasuryValues) (w : World kit) :
  cv_root v = cv_root v' ->
  cv_payer v = cv_payer v' ->
  cv_help v = cv_help v' ->
  given (cv_id v) = true ->
  given (cv_id v') = true ->
  Forall ascii_unit (firstn 32 (list_ascii_of_string (text (cv_id v)))) ->
  Forall ascii_unit (firstn 32 (list_ascii_of_string (text (cv_id v')))) ->
  ending (create_treasury_main host kit v w) = ending (create_treasury_main host kit v' w)
  /\ cluster (create_treasury_main host kit v w)
     = cluster (create_treasury_main host kit v' w).
Proof.
  destruct v as [root id payer help]. destruct v' as [root' id' payer' help'].
  cbn [cv_root cv_id cv_payer cv_help].
  intros <- <- <- Hg Hg' Hid Hid'. unfold create_treasury_main.
  cbn [cv_root cv_id cv_payer cv_help].
  rewrite Hg, Hg'.
  destruct (help || _ || _); [now split |].
  destruct (loadKeypair host (expandHome host payer)) as [payerKey | e]; [| now split].
  apply encodeId_ascii in Hid, Hid'. destruct Hid as [ia Hid], Hid' as [ia' Hid'].
  unfold await, sync.
  destruct (address kit (text root)) as [rootAddress | e]; [| now split].
  unfold createWallet, await, sync. cbn [cw_id cw_payer].
  rewrite Hid, Hid'.
  unfold deriveSwigConfigAddress, deriveSwigWalletAddress.
  destruct (address kit SYSTEM_PROGRAM) as [system | e]; [| now split].
  destruct (sendTransaction kit _ payerKey None w) as [[sig | e] w']; now split.
Qed.

Lemma create_treasury_identifier_unchecked_witness :
  ending (create_treasury_main laptop confirming create_my_treasury empty_cluster)
  = ending (create_treasury_main laptop confirming create_long_treasury empty_cluster)
  /\ cluster (create_treasury_main laptop confirming create_my_treasury empty_cluster)
     = cluster (create_treasury_main laptop confirming create_long_treasury empty_cluster).
Proof.
  apply create_treasury_identifier_unchecked; try reflexivity; repeat constructor.
Defined.
